(** * The Sparkify ETL ([etl.py]): star schema from song metadata and activity logs

    A shallow embedding of [process_song_data] and [process_log_data] and of
    the Spark and Python primitives they call, followed by the properties of
    the five tables they write.

    Conventions of the embedding:
    - a DataFrame is the list of its rows; Spark leaves the order of rows
      unspecified, so the order of a list is the model's own and the
      properties below are about membership, counts and equality of runs;
    - a column read from JSON is nullable: [option];
    - the [ts] column is kept as the JSON value of each record and is typed
      for the whole file, as schema inference types it;
    - a [DoubleType] value of a song or of a play is the rational it
      denotes ([Qc]); NaN and the infinities are outside the model;
    - a Python [float] is a binary64 number [m * 2 ^ e];
    - a [TimestampType] value is a count of microseconds since the epoch;
    - the storage behind [s3a://] is a finite map from the path (or glob
      pattern) handed to the reader or writer to the dataset found there;
    - a job threads the storage and may raise;
    - what the source leaves to the cluster is a parameter of the jobs: the
      time zone, libc's [mktime], whether an overwrite clears its target
      before the rows are computed, and what partition discovery makes of
      the songs table when it is read back. *)

From Stdlib Require Import ZArith QArith Qcanon Lia Ascii.
From stdpp Require Import base decidable option list numbers strings pretty gmap.

Local Open Scope Z_scope.

(** ** Values and rows *)

Definition double := Qc.
Definition timestamp := Z.

(** The [ts] field of a log record as it stands in the JSON text: absent
    or null, an integer literal, or a string. A [ts] written as a
    fraction, a boolean, an array or an object is outside the model. *)
Inductive ts_value :=
  | TsNull
  | TsLong (n : Z)
  | TsString (s : string).

Global Instance ts_value_eq_dec : EqDecision ts_value.
Proof. solve_decision. Defined.

(** A record of [song_data]: the columns [process_song_data] selects. *)
Module Song.
Record t := mk {
    song_id : option string;
    title : option string;
    artist_id : option string;
    artist_name : option string;
    artist_location : option string;
    artist_latitude : option double;
    artist_longitude : option double;
    year : option Z;
    duration : option double
}.
Global Instance song_eq_dec : EqDecision t.
Proof. solve_decision. Defined.
End Song.

(** A record of [log_data]: the columns [process_log_data] touches. *)
Module Log.
Record t := mk {
    page : option string;
    ts : ts_value;
    userId : option string;
    firstName : option string;
    lastName : option string;
    gender : option string;
    level : option string;
    song : option string;
    artist : option string;
    length : option double;
    sessionId : option Z;
    location : option string;
    userAgent : option string
}.
Global Instance log_eq_dec : EqDecision t.
Proof. solve_decision. Defined.
End Log.

(** Rows of [songs.parquet]. *)
Module SongDim.
Record t := mk {
    song_id : option string;
    title : option string;
    artist_id : option string;
    artist_name : option string;
    year : option Z;
    duration : option double
}.
Global Instance song_dim_eq_dec : EqDecision t.
Proof. solve_decision. Defined.
End SongDim.

(** Rows of [artists.parquet]. *)
Module ArtistDim.
Record t := mk {
    artist_id : option string;
    name : option string;
    location : option string;
    latitude : option double;
    longitude : option double
}.
Global Instance artist_dim_eq_dec : EqDecision t.
Proof. solve_decision. Defined.
End ArtistDim.

(** Rows of [users.parquet]. *)
Module UserDim.
Record t := mk {
    user_id : option string;
    first_name : option string;
    last_name : option string;
    gender : option string;
    level : option string
}.
Global Instance user_dim_eq_dec : EqDecision t.
Proof. solve_decision. Defined.
End UserDim.

(** Rows of [time.parquet]. *)
Module TimeDim.
Record t := mk {
    start_time : timestamp;
    hour : Z;
    day : Z;
    week : Z;
    month : Z;
    year : Z;
    weekday : Z
}.
Global Instance time_dim_eq_dec : EqDecision t.
Proof. solve_decision. Defined.
End TimeDim.

(** Rows of [songplays.parquet]. *)
Module SongPlay.
Record t := mk {
    start_time : timestamp;
    user_id : option string;
    level : option string;
    song_id : option string;
    artist_id : option string;
    session_id : option Z;
    location : option string;
    user_agent : option string;
    year : Z;
    month : Z
}.
Global Instance song_play_eq_dec : EqDecision t.
Proof. solve_decision. Defined.
End SongPlay.

(** A log record after the seven [withColumn] calls. *)
Module Timed.
Record t := mk {
    log : Log.t;
    start_time : timestamp;
    hour : Z;
    day : Z;
    week : Z;
    month : Z;
    year : Z;
    weekday : Z
}.
End Timed.
(** ** Errors and jobs *)

Inductive py_error :=
  | TypeError       (* unsupported operand type(s) for /, or not a number *)
  | ValueError      (* year out of range *)
  | OverflowError   (* timestamp out of range for platform time_t *)
  | OSError.        (* localtime: value too large for defined data type *)

Inductive exn :=
  | AnalysisException (msg : string)
  | PythonException (e : py_error).

Inductive result (A : Type) :=
  | Ok (a : A)
  | Raise (e : exn).
Global Arguments Ok {A} a.
Global Arguments Raise {A} e.

Global Instance result_ret : MRet result := @Ok.
Global Instance result_bind : MBind result := λ A B f m,
  match m with
  | Ok a => f a
  | Raise e => Raise e
  end.

Inductive dataset :=
  | SongJson (rows : list Song.t)
  | LogJson (rows : list Log.t)
  | SongsParquet (rows : list SongDim.t)
  | ArtistsParquet (rows : list ArtistDim.t)
  | UsersParquet (rows : list UserDim.t)
  | TimeParquet (rows : list TimeDim.t)
  | SongplaysParquet (rows : list SongPlay.t).

Abbreviation storage := (gmap string dataset).

(** A job runs against the storage; what it wrote before raising stays. *)
Definition job (A : Type) : Type := storage → storage * result A.

Global Instance job_ret : MRet job := λ A a fs, (fs, Ok a).
Global Instance job_bind : MBind job := λ A B f m fs,
  match m fs with
  | (fs', Ok a) => f a fs'
  | (fs', Raise e) => (fs', Raise e)
  end.

Definition lift {A} (r : result A) : job A := λ fs, (fs, r).

Definition path_missing : exn := AnalysisException "Path does not exist".
Definition unresolved_column : exn := AnalysisException "cannot resolve column".
Definition unable_to_infer_schema : exn :=
  AnalysisException "Unable to infer schema for Parquet".

(** [spark.read.json(path)] followed by the first reference to a column
    of [song_data]. Files without a record give a DataFrame without
    columns, and the reference does not resolve. A file with records in
    which no record carries one of the columns is a dataset of another
    kind. *)
Definition read_song_json (path : string) : job (list Song.t) := λ fs,
  match fs !! path with
  | Some (SongJson (r :: rows)) => (fs, Ok (r :: rows))
  | Some _ => (fs, Raise unresolved_column)
  | None => (fs, Raise path_missing)
  end.

(** [spark.read.json(path)] followed by the first reference to a column
    of [log_data], under the same conventions. *)
Definition read_log_json (path : string) : job (list Log.t) := λ fs,
  match fs !! path with
  | Some (LogJson (r :: rows)) => (fs, Ok (r :: rows))
  | Some _ => (fs, Raise unresolved_column)
  | None => (fs, Raise path_missing)
  end.

(** [df.write.mode("overwrite").parquet(path)] of rows that are at hand:
    the table at [path] is replaced. How the files are laid out under
    [path] matters only when the table is read back; see
    [read_songs_parquet]. *)
Definition write_parquet (path : string) (d : dataset) : job unit := λ fs,
  (<[path := d]> fs, Ok tt).

(** ** DataFrame primitives *)

(** [dropDuplicates()] with no column subset: one row of each class of
    equal rows, nulls comparing equal. *)
Definition dropDuplicates {A} `{EqDecision A} (df : list A) : list A :=
  remove_dups df.

(** SQL [=] on nullable columns: unknown as soon as one side is null. *)
Definition sql_eq {A} `{EqDecision A} (x y : option A) : option bool :=
  match x, y with
  | Some a, Some b => Some (bool_decide (a = b))
  | _, _ => None
  end.

(** SQL [AND] (Column [&]), three-valued. *)
Definition sql_and (p q : option bool) : option bool :=
  match p, q with
  | Some false, _ | _, Some false => Some false
  | Some true, Some true => Some true
  | _, _ => None
  end.

(** A filter or join condition keeps a row only when it is true. *)
Definition holds (p : option bool) : bool :=
  match p with
  | Some true => true
  | _ => false
  end.

(** [df.where(c)]. *)
Definition where_ {A} (c : A → option bool) (df : list A) : list A :=
  filter (λ r, holds (c r) = true) df.

(** The rows of [right] that the row [a] joins with under [on]. *)
Definition partners {A B} (on : A → B → option bool) (right : list B) (a : A)
    : list B :=
  filter (λ b, holds (on a b) = true) right.

(** [left.join(right, on, "left")]: every pair satisfying [on], and each
    left row without a partner once, with nulls on the right. *)
Definition join_row {A B} (on : A → B → option bool) (right : list B) (a : A)
    : list (A * option B) :=
  match partners on right a with
  | [] => [(a, None)]
  | matched => (λ b, (a, Some b)) <$> matched
  end.

Definition left_join {A B} (left : list A) (right : list B)
    (on : A → B → option bool) : list (A * option B) :=
  left ≫= join_row on right.

(** ** Calendar arithmetic

    The proleptic Gregorian calendar on day numbers counted from
    1970-01-01, as [datetime] and Spark's date functions use it. *)

(** Year, month and day of the day number [z]. *)
Definition civil_from_days (z : Z) : Z * Z * Z :=
  let z := z + 719468 in
  let era := z / 146097 in
  let doe := z - era * 146097 in
  let yoe := (doe - doe / 1460 + doe / 36524 - doe / 146096) / 365 in
  let doy := doe - (365 * yoe + yoe / 4 - yoe / 100) in
  let mp := (5 * doy + 2) / 153 in
  let d := doy - (153 * mp + 2) / 5 + 1 in
  let m := if mp <? 10 then mp + 3 else mp - 9 in
  let y := yoe + era * 400 in
  (if m <=? 2 then y + 1 else y, m, d).

Definition is_leap (y : Z) : bool :=
  (y mod 4 =? 0) && (negb (y mod 100 =? 0) || (y mod 400 =? 0)).

(** Days of a common year before the first of month [m]. *)
Definition days_before_month (m : Z) : Z :=
  match m with
  | 1 => 0 | 2 => 31 | 3 => 59 | 4 => 90 | 5 => 120 | 6 => 151
  | 7 => 181 | 8 => 212 | 9 => 243 | 10 => 273 | 11 => 304 | _ => 334
  end.

(** Ordinal of a date in its year, 1 for the first of January. *)
Definition day_of_year (date : Z * Z * Z) : Z :=
  let '(y, m, d) := date in
  days_before_month m + d + (if is_leap y && (2 <? m) then 1 else 0).

(** Length of month [m] of year [y]. *)
Definition days_in_month (y m : Z) : Z :=
  match m with
  | 2 => if is_leap y then 29 else 28
  | 4 | 6 | 9 | 11 => 30
  | _ => 31
  end.

(** Day number of a date (the inverse of [civil_from_days]). *)
Definition days_from_civil (date : Z * Z * Z) : Z :=
  let '(y, m, d) := date in
  let y := if m <=? 2 then y - 1 else y in
  let era := y / 400 in
  let yoe := y - era * 400 in
  let doy := (153 * (if 2 <? m then m - 3 else m + 9) + 2) / 5 + d - 1 in
  let doe := yoe * 365 + yoe / 4 - yoe / 100 + doy in
  era * 146097 + doe - 719468.

(** The Thursday of the Monday-to-Sunday week that holds day [z]. *)
Definition thursday_of_week (z : Z) : Z := z - (z + 3) mod 7 + 3.
(** ** Python floats

    A finite binary64 number is [m * 2 ^ e], kept as the pair [(m, e)];
    the pair is not normalised. The numbers that arise below are
    quotients and products of integers, never NaN; a quotient too large
    for a binary64 number keeps its value here, where Python has an
    infinity: both are refused alike as out of range for [time_t]. *)

Definition float : Type := Z * Z.

(** The integer nearest to [n / d] for [0 < d], a half going to the even
    neighbour. *)
Definition round_half_even (n d : Z) : Z :=
  let q := n / d in
  match 2 * (n mod d) ?= d with
  | Lt => q
  | Gt => q + 1
  | Eq => if Z.even q then q else q + 1
  end.

(** [d * 2 ^ l ≤ n], for an exponent [l] of either sign. *)
Definition scaled_le (d l n : Z) : bool :=
  if 0 <=? l then d * 2 ^ l <=? n else d <=? n * 2 ^ (- l).

(** The integer part of the binary logarithm of [n / d], for positive
    [n] and [d]. *)
Definition log2_ratio (n d : Z) : Z :=
  let l := Z.log2 n - Z.log2 d in
  if scaled_le d l n then l else l - 1.

(** The binary64 number nearest to [n / d] for [0 < d], ties to even: a
    mantissa of 53 bits, an exponent of at least -1074. *)
Definition nearest (n d : Z) : float :=
  if n =? 0 then (0, 0)
  else
    let e := Z.max (log2_ratio (Z.abs n) d - 52) (-1074) in
    (if 0 <=? e then round_half_even n (d * 2 ^ e)
     else round_half_even (n * 2 ^ (- e)) d, e).

(** [float(n)], and the reading of an integer literal as a double. *)
Definition float_of_Z (n : Z) : float := nearest n 1.

(** [f / 1000] on a float. *)
Definition float_div_1000 (f : float) : float :=
  let '(m, e) := f in
  if 0 <=? e then nearest (m * 2 ^ e) 1000 else nearest m (1000 * 2 ^ (- e)).

(** C's [modf]: the integer part, towards zero, and the fraction, which
    has the sign of [f]; both are exact. *)
Definition modf (f : float) : Z * float :=
  let '(m, e) := f in
  if 0 <=? e then (m * 2 ^ e, (0, 0))
  else (Z.quot m (2 ^ (- e)), (Z.rem m (2 ^ (- e)), e)).

(** [f * 1e6] on a float. *)
Definition float_mul_1e6 (f : float) : float :=
  let '(m, e) := f in
  if 0 <=? e then nearest (m * 2 ^ e * 1000000) 1
  else nearest (m * 1000000) (2 ^ (- e)).

(** Rounding a float to a whole number, halves to even. *)
Definition float_round (f : float) : Z :=
  let '(m, e) := f in
  if 0 <=? e then m * 2 ^ e else round_half_even m (2 ^ (- e)).

(** CPython's conversion of a float to seconds and microseconds
    ([_PyTime_ObjectToTimeval] with [_PyTime_ROUND_HALF_EVEN]). *)
Definition timeval (f : float) : Z * Z :=
  let '(intpart, floatpart) := modf f in
  let floatpart := float_round (float_mul_1e6 floatpart) in
  if 1000000 <=? floatpart then (intpart + 1, floatpart - 1000000)
  else if floatpart <? 0 then (intpart - 1, floatpart + 1000000)
  else (intpart, floatpart).

(** ** The [ts] column in Spark and in Python *)

(** The types that schema inference has for a [ts] of the three kinds. *)
Inductive ts_type := NullType | LongType | DecimalType | DoubleType | StringType.

Global Instance ts_type_eq_dec : EqDecision ts_type.
Proof. solve_decision. Defined.

(** The type inferred for one value: an integer literal is a long when
    it fits, a decimal of up to 38 digits beyond that, and a double
    beyond those. *)
Definition type_of_ts (x : ts_value) : ts_type :=
  match x with
  | TsNull => NullType
  | TsLong n =>
      if bool_decide (- 2 ^ 63 ≤ n < 2 ^ 63) then LongType
      else if bool_decide (Z.abs n < 10 ^ 38) then DecimalType
      else DoubleType
  | TsString _ => StringType
  end.

Definition rank (ty : ts_type) : nat :=
  match ty with
  | NullType => 0 | LongType => 1 | DecimalType => 2 | DoubleType => 3
  | StringType => 4
  end.

(** The type that holds the values of both types. *)
Definition compatible_type (a b : ts_type) : ts_type :=
  if (rank a <=? rank b)%nat then b else a.

(** The type of the [ts] column of a file: one type for all its records,
    plays or not; a column of nulls is a column of strings. *)
Definition ts_column_type (df : list Log.t) : ts_type :=
  match foldr compatible_type NullType ((type_of_ts ∘ Log.ts) <$> df) with
  | NullType => StringType
  | ty => ty
  end.

(** What the UDF is handed for a [ts]. *)
Inductive py_value :=
  | PyNone
  | PyInt (n : Z)
  | PyDecimal (n : Z)
  | PyFloat (f : float)
  | PyStr (s : string).

(** The value of a [ts] in a column of type [ty], as Python sees it. *)
Definition ts_as (ty : ts_type) (x : ts_value) : py_value :=
  match x, ty with
  | TsNull, _ => PyNone
  | TsLong n, LongType => PyInt n
  | TsLong n, DecimalType => PyDecimal n
  | TsLong n, DoubleType => PyFloat (float_of_Z n)
  | TsLong n, _ => PyStr (pretty n)
  | TsString s, _ => PyStr s
  end.

(** [x / 1000] in Python, where [fromtimestamp] takes it for a number:
    [None / 1000] and [str / 1000] are type errors, and a [Decimal]
    divides to a [Decimal], which [fromtimestamp] refuses. *)
Definition seconds_of (x : py_value) : option float :=
  match x with
  | PyInt n => Some (nearest n 1000)
  | PyFloat f => Some (float_div_1000 f)
  | PyNone | PyDecimal _ | PyStr _ => None
  end.

(** A naive [datetime]: the reading of the local clock, in seconds
    counted from 1970-01-01 00:00 on that clock, and the microseconds. *)
Record datetime := mk_datetime {
    wall : Z;
    microsecond : Z
}.

(** The year of a reading of the clock. *)
Definition year_of_wall (w : Z) : Z := (civil_from_days (w / 86400)).1.1.

(** CPython's [utc_to_seconds]: it refuses a year that no [datetime]
    holds. *)
Definition utc_to_seconds (w : Z) : result Z :=
  if bool_decide (1 ≤ year_of_wall w ≤ 9999) then Ok w
  else Raise (PythonException ValueError).

(** ** [process_song_data] *)

Definition song_data_path (input_data : string) : string :=
  input_data +:+ "song_data/A/A/A/*.json".
Definition songs_path (output_data : string) : string :=
  output_data +:+ "/songs.parquet".
Definition artists_path (output_data : string) : string :=
  output_data +:+ "/artists.parquet".

Definition select_song (r : Song.t) : SongDim.t :=
  SongDim.mk (Song.song_id r) (Song.title r) (Song.artist_id r)
             (Song.artist_name r) (Song.year r) (Song.duration r).

Definition select_artist (r : Song.t) : ArtistDim.t :=
  ArtistDim.mk (Song.artist_id r) (Song.artist_name r) (Song.artist_location r)
               (Song.artist_latitude r) (Song.artist_longitude r).

Definition songs_table (dataframe : list Song.t) : list SongDim.t :=
  dropDuplicates (select_song <$> dataframe).

Definition artists_table (dataframe : list Song.t) : list ArtistDim.t :=
  dropDuplicates (select_artist <$> dataframe).
Definition process_song_data (input_data output_data : string) : job unit :=
  dataframe ← read_song_json (song_data_path input_data);
  write_parquet (songs_path output_data) (SongsParquet (songs_table dataframe));;
  write_parquet (artists_path output_data)
                (ArtistsParquet (artists_table dataframe)).

(** ** The cluster

    What the source leaves to the cluster it runs on. *)
Record cluster := mk_cluster {
    (** The time zone: seconds east of UTC at a given epoch second. The
        Python workers ([datetime.fromtimestamp] without [tz]) and the
        Spark session (the date functions) are taken to be in this one
        zone. *)
    utcoffset : Z → Z;
    (** libc's [mktime] on a reading of the local clock, with
        [tm_isdst = -1]: the epoch second it takes the reading for. Which
        second it names for a reading that the clock shows twice is
        libc's choice; it is taken to be the same throughout a run. *)
    mktime : Z → Z;
    (** Whether [mode("overwrite")] clears its target before the rows to
        be written are computed, as Spark does without planned writes. *)
    clears_first : bool;
    (** What [spark.read.parquet] makes of the rows that were written
        partitioned by [year] and [artist_id]: the two columns come back
        from the names of the directories, typed anew by partition
        discovery, and a table that discovery cannot type is not read. *)
    partition_discovery : list SongDim.t → result (list SongDim.t)
}.

Section Cluster.

Variable c : cluster.

(** Wall-clock seconds and local day number of a timestamp. *)
Definition local_seconds (t : timestamp) : Z :=
  let s := t / 1000000 in s + utcoffset c s.

Definition local_day (t : timestamp) : Z := local_seconds t / 86400.

(** *** [pyspark.sql.functions] on a timestamp column *)

Definition hour (t : timestamp) : Z := local_seconds t mod 86400 / 3600.
Definition dayofmonth (t : timestamp) : Z := (civil_from_days (local_day t)).2.
Definition month (t : timestamp) : Z := (civil_from_days (local_day t)).1.2.
Definition year (t : timestamp) : Z := (civil_from_days (local_day t)).1.1.

(** ISO 8601 week: the week of a day is numbered in the year of its Thursday. *)
Definition weekofyear (t : timestamp) : Z :=
  (day_of_year (civil_from_days (thursday_of_week (local_day t))) - 1) / 7 + 1.

(** 1 = Sunday, ..., 7 = Saturday; day 0 (1970-01-01) is a Thursday. *)
Definition dayofweek (t : timestamp) : Z := (local_day t + 4) mod 7 + 1.

(** *** The UDF *)

(** libc's [localtime]: the reading of the local clock at an epoch
    second; it fails when the year does not fit [tm_year]. *)
Definition localtime (u : Z) : result Z :=
  let w := u + utcoffset c u in
  if bool_decide (- 2 ^ 31 ≤ year_of_wall w - 1900 < 2 ^ 31) then Ok w
  else Raise (PythonException OSError).

(** CPython's [local]: [localtime], then [utc_to_seconds]. *)
Definition local (u : Z) : result Z :=
  w ← localtime u; utc_to_seconds w.

(** [datetime.fromtimestamp(f)] without [tz]. The seconds must fit
    [time_t]; the reading of the local clock must be in a year that a
    [datetime] holds, and so must the readings a day earlier and at the
    end of a repeated hour, which CPython takes to set [fold]. *)
Definition fromtimestamp (f : float) : result datetime :=
  let '(timet, us) := timeval f in
  if bool_decide (- 2 ^ 63 ≤ timet ≤ 2 ^ 63) then
    w ← localtime timet;
    result_seconds ← utc_to_seconds w;
    probe_seconds ← local (timet - 86400);
    let transition := result_seconds - probe_seconds - 86400 in
    (if transition <? 0 then local (timet + transition) else Ok 0);;
    mret (mk_datetime w us)
  else Raise (PythonException OverflowError).

(** [TimestampType().toInternal(dt)] on a naive [dt]:
    [int(time.mktime(dt.timetuple())) * 1000000 + dt.microsecond]. *)
Definition to_internal (dt : datetime) : timestamp :=
  mktime c (wall dt) * 1000000 + microsecond dt.

(** [udf(lambda x: datetime.fromtimestamp(x / 1000), TimestampType())].
    Without a number to divide the lambda raises a [TypeError]. *)
Definition get_timestamp (x : py_value) : result timestamp :=
  match seconds_of x with
  | Some f => dt ← fromtimestamp f; mret (to_internal dt)
  | None => Raise (PythonException TypeError)
  end.

(** ** [process_log_data] *)

Definition log_data_path (input_data : string) : string :=
  input_data +:+ "log_data/2018/11/*.json".
Definition users_path (output_data : string) : string :=
  output_data +:+ "/users.parquet".
Definition time_path (output_data : string) : string :=
  output_data +:+ "/time.parquet".
Definition songplays_path (output_data : string) : string :=
  output_data +:+ "/songplays.parquet".

(** [where("page = 'NextSong'")] *)
Definition is_next_song (r : Log.t) : option bool :=
  sql_eq (Log.page r) (Some "NextSong"%string).

Definition select_user (r : Log.t) : UserDim.t :=
  UserDim.mk (Log.userId r) (Log.firstName r) (Log.lastName r)
             (Log.gender r) (Log.level r).

Definition users_table (dataframe : list Log.t) : list UserDim.t :=
  dropDuplicates (select_user <$> dataframe).

(** The six [withColumn] calls that follow [start_time]. *)
Definition timed (r : Log.t) (start_time : timestamp) : Timed.t :=
  Timed.mk r start_time (hour start_time) (dayofmonth start_time)
           (weekofyear start_time) (month start_time) (year start_time)
           (dayofweek start_time).

(** All seven [withColumn] calls on one row of a file whose [ts] column
    has the type [ts_type]; only the UDF can raise. *)
Definition with_time_columns (ts_type : ts_type) (r : Log.t) : result Timed.t :=
  start_time ← get_timestamp (ts_as ts_type (Log.ts r));
  mret (timed r start_time).

Definition select_time (r : Timed.t) : TimeDim.t :=
  TimeDim.mk (Timed.start_time r) (Timed.hour r) (Timed.day r) (Timed.week r)
             (Timed.month r) (Timed.year r) (Timed.weekday r).

Definition time_table (dataframe : list Timed.t) : list TimeDim.t :=
  dropDuplicates (select_time <$> dataframe).

(** The join condition of the songplays table; it reads only columns that
    the log record already had. *)
Definition song_matches (df : Log.t) (song : SongDim.t) : option bool :=
  sql_and
    (sql_and (sql_eq (Log.song df) (SongDim.title song))
             (sql_eq (Log.artist df) (SongDim.artist_name song)))
    (sql_eq (Log.length df) (SongDim.duration song)).

(** The [selectExpr] after the join. *)
Definition select_songplay (joined : Timed.t * option SongDim.t) : SongPlay.t :=
  let '(df, song) := joined in
  SongPlay.mk (Timed.start_time df)
              (Log.userId (Timed.log df))
              (Log.level (Timed.log df))
              (song ≫= SongDim.song_id)
              (song ≫= SongDim.artist_id)
              (Log.sessionId (Timed.log df))
              (Log.location (Timed.log df))
              (Log.userAgent (Timed.log df))
              (Timed.year df)
              (Timed.month df).

Definition songplays_table (dataframe : list Timed.t) (song_df : list SongDim.t)
    : list SongPlay.t :=
  select_songplay <$>
    left_join dataframe song_df (λ df song, song_matches (Timed.log df) song).

(** The songplays row of a log record: its own columns, the time columns
    of its [start_time], and the two keys of the song it joined with. *)
Definition songplay_of (r : Log.t) (start_time : timestamp)
    (song_id artist_id : option string) : SongPlay.t :=
  SongPlay.mk start_time (Log.userId r) (Log.level r) song_id artist_id
              (Log.sessionId r) (Log.location r) (Log.userAgent r)
              (year start_time) (month start_time).

(** Spark evaluates lazily: the rows of a table are computed while the
    table is written. When that fails, an engine that clears first has
    already removed what was at [path]. *)
Definition computed_for {A} (path : string) (rows : result A) : job A := λ fs,
  match rows with
  | Ok a => (fs, Ok a)
  | Raise e => (if clears_first c then delete path fs else fs, Raise e)
  end.

(** [spark.read.parquet(path)] of the songs table. *)
Definition read_songs_parquet (path : string) : job (list SongDim.t) := λ fs,
  match fs !! path with
  | Some (SongsParquet rows) => (fs, partition_discovery c rows)
  | Some _ => (fs, Raise unresolved_column)
  | None => (fs, Raise path_missing)
  end.

(** The UDF runs when the first table that needs [start_time] is written,
    after [users.parquet] is already in place. *)
Definition process_log_data (input_data output_data : string) : job unit :=
  dataframe ← read_log_json (log_data_path input_data);
  let ts_type := ts_column_type dataframe in
  let dataframe := where_ is_next_song dataframe in
  write_parquet (users_path output_data) (UsersParquet (users_table dataframe));;
  dataframe ← computed_for (time_path output_data)
                (mapM (with_time_columns ts_type) dataframe);
  write_parquet (time_path output_data) (TimeParquet (time_table dataframe));;
  song_df ← read_songs_parquet (songs_path output_data);
  write_parquet (songplays_path output_data)
                (SongplaysParquet (songplays_table dataframe song_df)).

Definition main (input_data output_data : string) : job unit :=
  process_song_data input_data output_data;;
  process_log_data input_data output_data.

End Cluster.

(** ** Reading a table back from the storage *)

Definition songs_at (output_data : string) (fs : storage) : list SongDim.t :=
  match fs !! songs_path output_data with
  | Some (SongsParquet rows) => rows
  | _ => []
  end.

Definition users_at (output_data : string) (fs : storage) : list UserDim.t :=
  match fs !! users_path output_data with
  | Some (UsersParquet rows) => rows
  | _ => []
  end.

Definition time_at (output_data : string) (fs : storage) : list TimeDim.t :=
  match fs !! time_path output_data with
  | Some (TimeParquet rows) => rows
  | _ => []
  end.

Definition songplays_at (output_data : string) (fs : storage) : list SongPlay.t :=
  match fs !! songplays_path output_data with
  | Some (SongplaysParquet rows) => rows
  | _ => []
  end.

(** ** Names of the days of the week *)

Inductive day_name :=
  | Sunday | Monday | Tuesday | Wednesday | Thursday | Friday | Saturday.

(** The name of a day number; day 0, 1970-01-01, was a Thursday. *)
Definition day_name_of (z : Z) : day_name :=
  match z mod 7 with
  | 0 => Thursday | 1 => Friday | 2 => Saturday | 3 => Sunday
  | 4 => Monday | 5 => Tuesday | _ => Wednesday
  end.

(** The numbering that starts the week on Sunday. *)
Definition sunday_first (n : day_name) : Z :=
  match n with
  | Sunday => 1 | Monday => 2 | Tuesday => 3 | Wednesday => 4
  | Thursday => 5 | Friday => 6 | Saturday => 7
  end.

(** ** Sample data *)

(** Partition discovery on the sample tables: their years are whole
    numbers and their artist ids are Echo Nest ids, which no inference
    takes for a number or a date, so the rows come back as written; a
    table without rows has no file to infer a schema from. *)
Definition text_keys (rows : list SongDim.t) : result (list SongDim.t) :=
  match rows with
  | [] => Raise unable_to_infer_schema
  | _ => Ok rows
  end.

(** A cluster on UTC, where the clock reads the epoch second itself,
    with an engine that clears the target of an overwrite first. *)
Definition utc : cluster :=
  mk_cluster (λ _, 0) (λ w, w) true text_keys.


Definition seconds_269_58338 : double := Q2Qc (26958338 # 100000).

(** The play of the scenario: "Setanta matins" by Elena. *)
Definition elena : Log.t :=
  Log.mk (Some "NextSong") (TsLong 1541121934796) (Some "8") (Some "Kaylee")
         (Some "Summers") (Some "F") (Some "free") (Some "Setanta matins")
         (Some "Elena") (Some seconds_269_58338) (Some 139)
         (Some "Phoenix-Mesa-Scottsdale, AZ") (Some "Mozilla/5.0").

(** The same user a day later, on the paid level. *)
Definition elena_paid : Log.t :=
  Log.mk (Some "NextSong") (TsLong 1541208334796) (Some "8") (Some "Kaylee")
         (Some "Summers") (Some "F") (Some "paid") (Some "Setanta matins")
         (Some "Elena") (Some seconds_269_58338) (Some 140)
         (Some "Phoenix-Mesa-Scottsdale, AZ") (Some "Mozilla/5.0").

(** A page view that is not a play and carries no timestamp. *)
Definition home_visit : Log.t :=
  Log.mk (Some "Home") TsNull (Some "8") (Some "Kaylee") (Some "Summers")
         (Some "F") (Some "free") None None None (Some 139)
         (Some "Phoenix-Mesa-Scottsdale, AZ") (Some "Mozilla/5.0").

(** A page view whose [ts] was logged as text. *)
Definition text_visit : Log.t :=
  Log.mk (Some "Home") (TsString "2018-11-02T01:25:34") (Some "8") (Some "Kaylee")
         (Some "Summers") (Some "F") (Some "free") None None None (Some 139)
         (Some "Phoenix-Mesa-Scottsdale, AZ") (Some "Mozilla/5.0").

(** A play stamped one second before the epoch. *)
Definition before_epoch : Log.t :=
  Log.mk (Some "NextSong") (TsLong (-1000)) (Some "8") (Some "Kaylee")
         (Some "Summers") (Some "F") (Some "free") (Some "Setanta matins")
         (Some "Elena") (Some seconds_269_58338) (Some 139)
         (Some "Phoenix-Mesa-Scottsdale, AZ") (Some "Mozilla/5.0").

(** A play whose [ts] column was read as a string. *)
Definition text_stamp : Log.t :=
  Log.mk (Some "NextSong") (TsString "yesterday") (Some "8") (Some "Kaylee")
         (Some "Summers") (Some "F") (Some "free") (Some "Setanta matins")
         (Some "Elena") (Some seconds_269_58338) (Some 139)
         (Some "Phoenix-Mesa-Scottsdale, AZ") (Some "Mozilla/5.0").

(** A song record for "Setanta matins" under a given id and title. *)
Definition setanta (song_id title : string) : Song.t :=
  Song.mk (Some song_id) (Some title) (Some "AR5KOSW1187FB35FF4")
          (Some "Elena") (Some "Dubai UAE") None None (Some 0)
          (Some seconds_269_58338).

Definition other_song : Song.t :=
  Song.mk (Some "SOUPIRU12A6D4FA1E1") (Some "Der Kleine Dompfaff")
          (Some "ARJIE2Y1187B994AB7") (Some "Line Renaud") None None None
          (Some 0) (Some (Q2Qc (15292363 # 100000))).

(** A bucket holding the two inputs under ["in/"]. *)
Definition bucket (songs : list Song.t) (logs : list Log.t) : storage :=
  <[song_data_path "in/" := SongJson songs]>
    (<[log_data_path "in/" := LogJson logs]> ∅).

(** The same bucket once [process_song_data] has run. *)
Definition bucket_with_songs (songs : list Song.t) (logs : list Log.t) : storage :=
  (process_song_data "in/" "out" (bucket songs logs)).1.

(** Two records of one song id whose titles differ. *)
Definition setanta_studio : Song.t :=
  setanta "SOZCTXZ12AB0182364" "Setanta matins".
Definition setanta_live : Song.t :=
  setanta "SOZCTXZ12AB0182364" "Setanta matins (live)".

(** A second edition: another song id, the same title, artist and duration. *)
Definition setanta_reissue : Song.t :=
  setanta "SOBBUGU12A8C13E95D" "Setanta matins".

Definition sample_logs : list Log.t := [elena; home_visit; elena_paid].

(** The bucket before [process_log_data] runs: one partner for the plays. *)
Definition matched_bucket : storage :=
  bucket_with_songs [setanta_studio; other_song] sample_logs.

(** No partner for the plays. *)
Definition unmatched_bucket : storage :=
  bucket_with_songs [other_song] sample_logs.

(** Two partners for the one play, from the raw inputs on. *)
Definition two_editions_bucket : storage :=
  bucket [setanta_studio; setanta_reissue] [elena; home_visit].

(** A play stamped before the epoch, from the raw inputs on. *)
Definition before_epoch_bucket : storage :=
  bucket [setanta_studio] [before_epoch; home_visit].

(** A play on Sunday 4 November 2018. *)
Definition sunday_play : Log.t :=
  Log.mk (Some "NextSong") (TsLong 1541294734796) (Some "8") (Some "Kaylee")
         (Some "Summers") (Some "F") (Some "paid") (Some "Setanta matins")
         (Some "Elena") (Some seconds_269_58338) (Some 141)
         (Some "Phoenix-Mesa-Scottsdale, AZ") (Some "Mozilla/5.0").

(** A log in which one play has a [ts] that is not a number. *)
Definition text_stamp_bucket : storage :=
  bucket_with_songs [setanta_studio] [elena; text_stamp].

(** The runs of the jobs on the sample buckets, on the UTC cluster. *)
Definition matched_run : storage * result unit :=
  process_log_data utc "in/" "out" matched_bucket.
Definition unmatched_run : storage * result unit :=
  process_log_data utc "in/" "out" unmatched_bucket.
Definition two_editions_run : storage * result unit :=
  main utc "in/" "out" two_editions_bucket.
Definition before_epoch_run : storage * result unit :=
  main utc "in/" "out" before_epoch_bucket.

(** Plays at noon UTC on 4 January 2019 and on 28 December 2020. *)
Definition january_play : Log.t :=
  Log.mk (Some "NextSong") (TsLong 1546603200000) (Some "8") (Some "Kaylee")
         (Some "Summers") (Some "F") (Some "paid") (Some "Setanta matins")
         (Some "Elena") (Some seconds_269_58338) (Some 150)
         (Some "Phoenix-Mesa-Scottsdale, AZ") (Some "Mozilla/5.0").
Definition december_play : Log.t :=
  Log.mk (Some "NextSong") (TsLong 1609156800000) (Some "8") (Some "Kaylee")
         (Some "Summers") (Some "F") (Some "paid") (Some "Setanta matins")
         (Some "Elena") (Some seconds_269_58338) (Some 151)
         (Some "Phoenix-Mesa-Scottsdale, AZ") (Some "Mozilla/5.0").

(** A play without a song title, and a page view with the [ts] of [elena]. *)
Definition untitled_play : Log.t :=
  Log.mk (Some "NextSong") (TsLong 1541121934796) (Some "8") (Some "Kaylee")
         (Some "Summers") (Some "F") (Some "free") None
         (Some "Elena") (Some seconds_269_58338) (Some 139)
         (Some "Phoenix-Mesa-Scottsdale, AZ") (Some "Mozilla/5.0").

(** A song record without a title, by the same artist and as long. *)
Definition untitled_song : Song.t :=
  Song.mk (Some "SOQHXMF12AB0182363") None (Some "AR5KOSW1187FB35FF4")
          (Some "Elena") (Some "Dubai UAE") None None (Some 0)
          (Some seconds_269_58338).

(** Another song of the same artist, recorded under another location. *)
Definition setanta_abroad : Song.t :=
  Song.mk (Some "SOGDBUF12A8C140FAA") (Some "Intro") (Some "AR5KOSW1187FB35FF4")
          (Some "Elena") (Some "London, England") None None (Some 2003)
          (Some (Q2Qc (7593424 # 100000))).


(** A log of page views only, next to a songs table. *)
Definition page_views_bucket : storage :=
  bucket_with_songs [setanta_studio] [home_visit; home_visit].





(** A time table left by an earlier run, in the way of a run that fails. *)
Definition stale_time_bucket : storage :=
  <[time_path "out" := TimeParquet [TimeDim.mk 1541121934796000 1 2 44 11 2018 6]]>
    text_stamp_bucket.
(** ** Tactics

    [zdiv] settles linear goals with division and remainder by constants;
    [case_eqb] splits on a comparison and states what it decides. *)

Ltac zdiv := Z.div_mod_to_equations; lia.

Ltac case_eqb c :=
  let E := fresh "E" in
  destruct c eqn:E;
  [ first [apply Z.eqb_eq in E | apply Z.ltb_lt in E | apply Z.leb_le in E]
  | first [apply Z.eqb_neq in E | apply Z.ltb_ge in E | apply Z.leb_gt in E] ].

(** ** Facts about the DataFrame primitives *)

Section primitives.
Context {A : Type} `{EqDecision A}.
Implicit Types df : list A.

Lemma dropDuplicates_NoDup df : NoDup (dropDuplicates df).
Proof. apply NoDup_remove_dups. Qed.

Lemma elem_of_dropDuplicates df x : x ∈ dropDuplicates df ↔ x ∈ df.
Proof. apply elem_of_remove_dups. Qed.

Lemma dropDuplicates_NoDup_id df : NoDup df → dropDuplicates df = df.
Proof.
  unfold dropDuplicates.
  induction 1 as [|x l Hx _ IH]; simpl; [done|].
  rewrite IH. by destruct (decide_rel _ x l).
Qed.

Lemma dropDuplicates_idemp df :
  dropDuplicates (dropDuplicates df) = dropDuplicates df.
Proof. apply dropDuplicates_NoDup_id, dropDuplicates_NoDup. Qed.


(** A row occurs once in a table without duplicates. *)
Lemma NoDup_occurs_once df x :
  NoDup df → x ∈ df → length (filter (λ y, y = x) df) = 1%nat.
Proof.
  induction 1 as [|y l Hy Hl IH]; intros Hx.
  { by apply elem_of_nil in Hx. }
  rewrite filter_cons. destruct (decide (y = x)) as [->|Hne].
  - simpl. f_equal. apply length_zero_iff_nil.
    destruct (filter (λ y, y = x) l) as [|z k] eqn:E; [done|].
    assert (Hz : z ∈ filter (λ y, y = x) l) by (rewrite E; left).
    apply list_elem_of_filter in Hz as [-> Hz]. done.
  - apply IH. apply elem_of_cons in Hx as [->|Hx]; done.
Qed.

(** Two different rows of the input both survive. *)
Lemma dropDuplicates_keeps_both df x y :
  x ∈ df → y ∈ df → x ≠ y →
  x ∈ dropDuplicates df ∧ y ∈ dropDuplicates df ∧
  (2 ≤ length (dropDuplicates df))%nat.
Proof.
  intros Hx Hy Hne.
  apply elem_of_dropDuplicates in Hx, Hy. split_and!; [done..|].
  destruct (dropDuplicates df) as [|a [|b l]]; simpl; [|exfalso|lia].
  - by apply elem_of_nil in Hx.
  - apply list_elem_of_singleton in Hx, Hy. congruence.
Qed.

End primitives.

Section join.
Context {A B : Type}.
Implicit Types (on : A → B → option bool) (left : list A) (right : list B).

Lemma join_row_unmatched on right a :
  partners on right a = [] → join_row on right a = [(a, None)].
Proof. unfold join_row. by intros ->. Qed.

Lemma join_row_matched on right a :
  partners on right a ≠ [] →
  join_row on right a = (λ b, (a, Some b)) <$> partners on right a.
Proof. unfold join_row. by destruct (partners on right a). Qed.

Lemma length_join_row on right a :
  length (join_row on right a) = (1 `max` length (partners on right a))%nat.
Proof.
  destruct (partners on right a) as [|b l] eqn:E.
  - by rewrite join_row_unmatched.
  - rewrite join_row_matched, length_fmap, E by (by rewrite E). simpl. lia.
Qed.

Lemma length_left_join left right on :
  length (left_join left right on) =
  sum_list_with (λ a, 1 `max` length (partners on right a))%nat left.
Proof.
  unfold left_join. induction left as [|a l IH]; [done|].
  rewrite bind_cons, length_app, IH, length_join_row. done.
Qed.

Lemma left_join_keeps_left left right on :
  (length left ≤ length (left_join left right on))%nat.
Proof.
  rewrite length_left_join.
  induction left as [|a l IH]; simpl; lia.
Qed.

Lemma left_join_at_most_one left right on :
  Forall (λ a, (length (partners on right a) ≤ 1)%nat) left →
  length (left_join left right on) = length left.
Proof.
  rewrite length_left_join.
  induction 1 as [|a l Ha _ IH]; simpl; [done|]. rewrite IH. lia.
Qed.

Lemma elem_of_left_join_matched left right on a b :
  a ∈ left → b ∈ right → holds (on a b) = true →
  (a, Some b) ∈ left_join left right on.
Proof.
  intros Ha Hb Hon. unfold left_join. apply list_elem_of_bind. exists a.
  split; [|done].
  assert (Hp : b ∈ partners on right a) by (by apply list_elem_of_filter).
  rewrite join_row_matched by (intros E; rewrite E in Hp; by apply elem_of_nil in Hp).
  by apply (list_elem_of_fmap_2 (λ b, (a, Some b))).
Qed.

Lemma elem_of_left_join_unmatched left right on a :
  a ∈ left → Forall (λ b, holds (on a b) = false) right →
  (a, None) ∈ left_join left right on.
Proof.
  intros Ha Hall. unfold left_join. apply list_elem_of_bind. exists a.
  split; [|done]. rewrite join_row_unmatched; [left|].
  unfold partners. induction Hall as [|b l Hb _ IH]; [done|].
  rewrite filter_cons_False; [done|]. by rewrite Hb.
Qed.

Lemma elem_of_left_join_left left right on a ob :
  (a, ob) ∈ left_join left right on → a ∈ left.
Proof.
  unfold left_join. intros (a' & Hin & Ha')%list_elem_of_bind.
  unfold join_row in Hin. destruct (partners on right a') as [|b l].
  - apply list_elem_of_singleton in Hin. congruence.
  - apply list_elem_of_fmap in Hin as (b' & [= -> ->] & _). done.
Qed.

End join.

(** ** Facts about the calendar *)

(** The position of a day in its 400-year era. *)
Lemma era_split z :
  ∃ era doe, z + 719468 = era * 146097 + doe ∧ 0 ≤ doe < 146097 ∧
             era = (z + 719468) / 146097.
Proof.
  exists ((z + 719468) / 146097), ((z + 719468) mod 146097).
  split; [zdiv|split; [zdiv|done]].
Qed.

Lemma civil_from_days_bounds z :
  1 ≤ (civil_from_days z).1.2 ≤ 12 ∧ 1 ≤ (civil_from_days z).2 ≤ 31.
Proof.
  unfold civil_from_days. cbv zeta. cbn [fst snd].
  destruct (era_split z) as (era & doe & Hz & Hdoe & <-).
  replace (z + 719468 - era * 146097) with doe by lia. clear Hz.
  set (yoe := (doe - doe / 1460 + doe / 36524 - doe / 146096) / 365).
  set (doy := doe - (365 * yoe + yoe / 4 - yoe / 100)).
  assert (Hdoy : 0 ≤ doy ≤ 365) by (subst doy yoe; zdiv).
  clearbody doy. clear yoe.
  set (mp := (5 * doy + 2) / 153).
  assert (0 ≤ mp ≤ 11) by (subst mp; zdiv).
  case_eqb (mp <? 10); subst mp; zdiv.
Qed.

(** [civil_from_days] names each day number by a date that
    [days_from_civil] maps back to it: no two days share a date. *)
Lemma days_from_civil_from_days z : days_from_civil (civil_from_days z) = z.
Proof.
  unfold civil_from_days, days_from_civil. cbv zeta.
  destruct (era_split z) as (era & doe & Hz & Hdoe & <-).
  replace (z + 719468 - era * 146097) with doe by lia.
  assert (z = era * 146097 + doe - 719468) as -> by lia. clear Hz.
  set (yoe := (doe - doe / 1460 + doe / 36524 - doe / 146096) / 365).
  assert (Hyoe : 0 ≤ yoe ≤ 399) by (subst yoe; zdiv).
  set (doy := doe - (365 * yoe + yoe / 4 - yoe / 100)).
  assert (Hdoy : 0 ≤ doy ≤ 365) by (subst doy yoe; zdiv).
  assert (Hd : doe = 365 * yoe + yoe / 4 - yoe / 100 + doy) by (subst doy; lia).
  clearbody doy yoe.
  set (mp := (5 * doy + 2) / 153).
  assert (Hmp : 0 ≤ mp ≤ 11) by (subst mp; zdiv).
  set (d := doy - (153 * mp + 2) / 5 + 1).
  assert (Hday : doy = (153 * mp + 2) / 5 + d - 1) by (subst d; lia).
  clearbody d mp.
  case_eqb (mp <? 10).
  - assert ((mp + 3 <=? 2) = false) as -> by (apply Z.leb_gt; lia).
    assert ((2 <? mp + 3) = true) as -> by (apply Z.ltb_lt; lia).
    replace (mp + 3 - 3) with mp by lia.
    replace ((yoe + era * 400) / 400) with era by zdiv.
    replace (yoe + era * 400 - era * 400) with yoe by lia. lia.
  - assert ((mp - 9 <=? 2) = true) as -> by (apply Z.leb_le; lia).
    assert ((2 <? mp - 9) = false) as -> by (apply Z.ltb_ge; lia).
    replace (mp - 9 + 9) with mp by lia.
    replace (yoe + era * 400 + 1 - 1) with (yoe + era * 400) by lia.
    replace ((yoe + era * 400) / 400) with era by zdiv.
    replace (yoe + era * 400 - era * 400) with yoe by lia. lia.
Qed.

(** [day_of_year] counts from the first of January of the same year. *)
Lemma day_of_year_from_january y m d :
  1 ≤ m ≤ 12 →
  day_of_year (y, m, d) = days_from_civil (y, m, d) - days_from_civil (y, 1, 1) + 1.
Proof.
  intros Hm. unfold days_from_civil, day_of_year, is_leap.
  assert (m = 1 ∨ m = 2 ∨ m = 3 ∨ m = 4 ∨ m = 5 ∨ m = 6 ∨ m = 7 ∨ m = 8 ∨
          m = 9 ∨ m = 10 ∨ m = 11 ∨ m = 12) as Hc by lia.
  destruct_or!; subst m; simpl; try lia.
  all: rewrite ?andb_true_r.
  all: case_eqb (y mod 4 =? 0); case_eqb (y mod 100 =? 0);
       case_eqb (y mod 400 =? 0); simpl; zdiv.
Qed.

Lemma day_of_year_bounds y m d :
  1 ≤ m ≤ 12 → 1 ≤ d ≤ 31 → 1 ≤ day_of_year (y, m, d) ≤ 366.
Proof.
  intros Hm Hd. unfold day_of_year.
  assert (0 ≤ days_before_month m ≤ 334).
  { assert (m = 1 ∨ m = 2 ∨ m = 3 ∨ m = 4 ∨ m = 5 ∨ m = 6 ∨ m = 7 ∨ m = 8 ∨
            m = 9 ∨ m = 10 ∨ m = 11 ∨ m = 12) as Hc by lia.
    destruct_or!; subst m; simpl; lia. }
  destruct (is_leap y && (2 <? m)); lia.
Qed.

Lemma day_of_year_civil_bounds z : 1 ≤ day_of_year (civil_from_days z) ≤ 366.
Proof.
  pose proof (civil_from_days_bounds z) as [Hm Hd].
  destruct (civil_from_days z) as [[y m] d]. by apply day_of_year_bounds.
Qed.

(** The Thursday of a week is a Thursday, at most three days away, and the
    seven days from its Monday to its Sunday share it. *)
Lemma thursday_of_week_spec z :
  (thursday_of_week z + 4) mod 7 + 1 = 5 ∧
  z - 3 ≤ thursday_of_week z ≤ z + 3 ∧
  ∀ k, 0 ≤ k < 7 → thursday_of_week (thursday_of_week z - 3 + k) = thursday_of_week z.
Proof. unfold thursday_of_week. split_and!; [zdiv|zdiv|zdiv|intros k Hk; zdiv]. Qed.

(** Day 0 is 1970-01-01, and a year has 366 days when it is leap, 365
    otherwise. *)
Lemma epoch_day : days_from_civil (1970, 1, 1) = 0.
Proof. reflexivity. Qed.

Lemma year_length y :
  days_from_civil (y + 1, 1, 1) - days_from_civil (y, 1, 1)
  = if is_leap y then 366 else 365.
Proof.
  unfold days_from_civil, is_leap. simpl.
  replace (y + 1 - 1) with y by lia.
  case_eqb (y mod 4 =? 0); case_eqb (y mod 100 =? 0);
    case_eqb (y mod 400 =? 0); simpl; zdiv.
Qed.

(** Within an era, the day of the era determines the year of the era. *)
Lemma year_of_era_from_day era yoe doy :
  0 ≤ yoe < 400 → 0 ≤ doy →
  doy < 365 + (if is_leap (yoe + 1) then 1 else 0) →
  let doe := yoe * 365 + yoe / 4 - yoe / 100 + doy in
  let z := era * 146097 + doe in
  z / 146097 = era ∧
  (doe - doe / 1460 + doe / 36524 - doe / 146096) / 365 = yoe.
Proof.
  unfold is_leap. intros Hy Hd0 Hd. cbv zeta.
  set (doe := yoe * 365 + yoe / 4 - yoe / 100 + doy).
  assert (Hdoe : 0 ≤ doe < 146097).
  { subst doe. revert Hd.
    case_eqb ((yoe + 1) mod 4 =? 0); case_eqb ((yoe + 1) mod 100 =? 0);
    case_eqb ((yoe + 1) mod 400 =? 0); simpl; intros; zdiv. }
  split; [zdiv|].
  subst doe. revert Hd.
  case_eqb ((yoe + 1) mod 4 =? 0); case_eqb ((yoe + 1) mod 100 =? 0);
    case_eqb ((yoe + 1) mod 400 =? 0); simpl; intros; zdiv.
Qed.

(** The inverse, on dates counted from the first of March. *)
Lemma civil_from_days_march era yoe mp d :
  0 ≤ yoe < 400 → 0 ≤ mp ≤ 11 → 1 ≤ d →
  (mp < 11 → d ≤ (153 * (mp + 1) + 2) / 5 - (153 * mp + 2) / 5) →
  (mp = 11 → d ≤ 28 + (if is_leap (yoe + 1) then 1 else 0)) →
  civil_from_days
    (era * 146097 + (yoe * 365 + yoe / 4 - yoe / 100 + ((153 * mp + 2) / 5 + d - 1))
     - 719468)
  = (if mp <? 10 then yoe + era * 400 else yoe + era * 400 + 1,
     if mp <? 10 then mp + 3 else mp - 9, d).
Proof.
  intros Hy Hmp Hd1 Hd2 Hd3.
  set (doy := (153 * mp + 2) / 5 + d - 1).
  assert (Hdoy : 0 ≤ doy ∧ doy < 365 + (if is_leap (yoe + 1) then 1 else 0)).
  { subst doy. destruct (is_leap (yoe + 1)); zdiv. }
  destruct Hdoy as [Hdoy0 Hdoy1].
  destruct (year_of_era_from_day era yoe doy Hy Hdoy0 Hdoy1) as [Hera Hyoe].
  unfold civil_from_days. cbv zeta.
  set (doe := yoe * 365 + yoe / 4 - yoe / 100 + doy) in *.
  replace (era * 146097 + doe - 719468 + 719468) with (era * 146097 + doe) by lia.
  rewrite Hera.
  replace (era * 146097 + doe - era * 146097) with doe by lia.
  rewrite Hyoe.
  replace (doe - (365 * yoe + yoe / 4 - yoe / 100)) with doy by (subst doe; lia).
  assert (Hmp' : (5 * doy + 2) / 153 = mp).
  { subst doy. clear Hera Hyoe Hdoy0 Hdoy1. clearbody doe.
    assert (mp = 0 ∨ mp = 1 ∨ mp = 2 ∨ mp = 3 ∨ mp = 4 ∨ mp = 5 ∨ mp = 6 ∨
            mp = 7 ∨ mp = 8 ∨ mp = 9 ∨ mp = 10 ∨ mp = 11) as Hc by lia.
    destruct (is_leap (yoe + 1));
      destruct_or!; subst mp;
      try (specialize (Hd2 ltac:(lia))); try (specialize (Hd3 eq_refl));
      zdiv. }
  rewrite Hmp'.
  replace (doy - (153 * mp + 2) / 5 + 1) with d by (subst doy; lia).
  case_eqb (mp <? 10).
  - assert ((mp + 3 <=? 2) = false) as -> by (apply Z.leb_gt; lia). done.
  - assert ((mp - 9 <=? 2) = true) as -> by (apply Z.leb_le; lia). done.
Qed.

(** Every date of the calendar is the date of its day number. *)
Lemma civil_from_days_from_civil y m d :
  1 ≤ m ≤ 12 → 1 ≤ d ≤ days_in_month y m →
  civil_from_days (days_from_civil (y, m, d)) = (y, m, d).
Proof.
  intros Hm Hd. unfold days_from_civil.
  set (y' := if m <=? 2 then y - 1 else y).
  set (mp := if 2 <? m then m - 3 else m + 9).
  assert (Hmp : 0 ≤ mp ≤ 11) by (subst mp; case_eqb (2 <? m); lia).
  set (era := y' / 400). set (yoe := y' - era * 400).
  assert (Hyoe : 0 ≤ yoe < 400) by (subst yoe era; zdiv).
  rewrite (civil_from_days_march era yoe mp d Hyoe Hmp).
  - subst mp y' yoe. 
    case_eqb (2 <? m).
    + assert ((m <=? 2) = false) as Hle by (apply Z.leb_gt; lia).
      rewrite Hle in *. 
      assert ((m - 3 <? 10) = true) as -> by (apply Z.ltb_lt; lia).
      f_equal. f_equal; lia.
    + assert ((m <=? 2) = true) as Hle by (apply Z.leb_le; lia).
      rewrite Hle in *.
      assert ((m + 9 <? 10) = false) as -> by (apply Z.ltb_ge; lia).
      f_equal. f_equal; lia.
  - lia.
  - intros Hlt. unfold days_in_month in Hd.
    assert (m = 1 ∨ m = 3 ∨ m = 4 ∨ m = 5 ∨ m = 6 ∨ m = 7 ∨ m = 8 ∨
          m = 9 ∨ m = 10 ∨ m = 11 ∨ m = 12) as Hc.
    { subst mp. case_eqb (2 <? m); lia. }
    clear Hlt Hmp. destruct_or!; subst m; cbv in mp; subst mp; simpl in Hd; zdiv.
  - intros Heq. assert (m = 2) as -> by (subst mp; case_eqb (2 <? m); lia).
    unfold days_in_month in Hd. unfold is_leap in Hd |- *.
    subst yoe era y'. simpl in *.
    replace ((y - 1 - (y - 1) / 400 * 400 + 1) mod 4) with (y mod 4) by zdiv.
    replace ((y - 1 - (y - 1) / 400 * 400 + 1) mod 100) with (y mod 100) by zdiv.
    replace ((y - 1 - (y - 1) / 400 * 400 + 1) mod 400) with (y mod 400) by zdiv.
    destruct ((y mod 4 =? 0) && (negb (y mod 100 =? 0) || (y mod 400 =? 0))); lia.
Qed.


(** ** Facts about row-wise evaluation *)

Section mapM_result.
Context {A B : Type} (f : A → result B).

Lemma mapM_Ok l k : mapM f l = Ok k ↔ Forall2 (λ x y, f x = Ok y) l k.
Proof.
  split.
  - revert k. induction l as [|x l IH]; intros k; simpl.
    + intros [= <-]. constructor.
    + destruct (f x) as [y|e] eqn:Ex; simpl; [|done].
      destruct (mapM f l) as [k'|e]; simpl; [|done].
      intros [= <-]. constructor; auto.
  - induction 1 as [|x y l k Hx _ IH]; simpl; [done|].
    rewrite Hx. simpl. rewrite IH. done.
Qed.

Lemma mapM_Raise l e : mapM f l = Raise e → ∃ x, x ∈ l ∧ f x = Raise e.
Proof.
  induction l as [|x l IH]; simpl; [done|].
  destruct (f x) as [y|e'] eqn:Ex; simpl.
  - destruct (mapM f l) as [k'|e']; simpl; [done|].
    intros [= <-]. destruct IH as (x' & ? & ?); [done|].
    exists x'. split; [by right|done].
  - intros [= <-]. exists x. split; [left|done].
Qed.

Lemma mapM_elem_Raise l x e :
  x ∈ l → f x = Raise e → ∃ e', mapM f l = Raise e'.
Proof.
  intros Hx Hfx. induction l as [|y l IH]; [by apply elem_of_nil in Hx|].
  simpl. destruct (f y) as [z|e'] eqn:Ey; simpl; [|by eexists].
  apply elem_of_cons in Hx as [->|Hx]; [congruence|].
  destruct (IH Hx) as [e' ->]. by eexists.
Qed.

Lemma mapM_Ok_elem l k y :
  mapM f l = Ok k → y ∈ k → ∃ x, x ∈ l ∧ f x = Ok y.
Proof.
  intros H%mapM_Ok Hy. induction H as [|x y' l k Hx _ IH].
  - by apply elem_of_nil in Hy.
  - apply elem_of_cons in Hy as [->|Hy].
    + exists x. split; [left|done].
    + destruct (IH Hy) as (x' & ? & ?). exists x'. split; [by right|done].
Qed.

Lemma mapM_Ok_elem_inv l k x :
  mapM f l = Ok k → x ∈ l → ∃ y, y ∈ k ∧ f x = Ok y.
Proof.
  intros H%mapM_Ok Hx. induction H as [|x' y l k Hfx _ IH].
  - by apply elem_of_nil in Hx.
  - apply elem_of_cons in Hx as [->|Hx].
    + exists y. split; [left|done].
    + destruct (IH Hx) as (y' & ? & ?). exists y'. split; [by right|done].
Qed.

Lemma mapM_Ok_length l k : mapM f l = Ok k → length k = length l.
Proof. intros H%mapM_Ok. symmetry. by eapply Forall2_length. Qed.

End mapM_result.

(** ** Facts about floats *)

Lemma round_half_even_error n d :
  0 < d → - d ≤ 2 * (n - round_half_even n d * d) ≤ d.
Proof.
  intros Hd. unfold round_half_even.
  pose proof (Z.div_mod n d ltac:(lia)) as Hn.
  pose proof (Z.mod_pos_bound n d Hd) as Hr.
  destruct (Z.compare_spec (2 * (n mod d)) d) as [H|H|H];
    [destruct (Z.even (n / d))|..]; nia.
Qed.

Lemma round_half_even_unique n d k :
  0 < d → - d < 2 * (n - k * d) < d → round_half_even n d = k.
Proof.
  intros Hd Hk. pose proof (round_half_even_error n d Hd) as Hr. nia.
Qed.

Lemma round_half_even_le n d k :
  0 < d → n ≤ k * d → round_half_even n d ≤ k.
Proof.
  intros Hd Hk. unfold round_half_even.
  pose proof (Z.div_mod n d ltac:(lia)) as Hn.
  pose proof (Z.mod_pos_bound n d Hd) as Hr.
  destruct (Z.compare_spec (2 * (n mod d)) d) as [H|H|H];
    [destruct (Z.even (n / d))|..]; nia.
Qed.

Lemma round_half_even_ge n d k :
  0 < d → k * d ≤ n → k ≤ round_half_even n d.
Proof.
  intros Hd Hk. unfold round_half_even.
  pose proof (Z.div_mod n d ltac:(lia)) as Hn.
  pose proof (Z.mod_pos_bound n d Hd) as Hr.
  destruct (Z.compare_spec (2 * (n mod d)) d) as [H|H|H];
    [destruct (Z.even (n / d))|..]; nia.
Qed.

(** The exponent that [log2_ratio] finds is no larger than the ratio allows. *)
Lemma log2_ratio_lt n d L :
  0 < n → 0 < d → 0 ≤ L → n < d * 2 ^ L → log2_ratio n d < L.
Proof.
  intros Hn Hd HL Hlt. unfold log2_ratio.
  set (l := Z.log2 n - Z.log2 d).
  destruct (Z.lt_ge_cases l L) as [Hl|Hl].
  { destruct (scaled_le d l n); lia. }
  pose proof (Z.log2_spec n Hn) as [Hn1 _].
  pose proof (Z.log2_spec d Hd) as [_ Hd2].
  pose proof (Z.log2_nonneg n). pose proof (Z.log2_nonneg d).
  rewrite Z.pow_succ_r in Hd2 by lia.
  assert (HB : 0 < 2 ^ Z.log2 d) by (apply Z.pow_pos_nonneg; lia).
  assert (HA : 0 < 2 ^ L) by (apply Z.pow_pos_nonneg; lia).
  assert (Hpow : 2 ^ Z.log2 n = 2 ^ l * 2 ^ Z.log2 d).
  { rewrite <- Z.pow_add_r by lia. f_equal. lia. }
  assert (l = L) as Heq.
  { destruct (Z.lt_ge_cases L l) as [Hgt|]; [|lia]. exfalso.
    assert (Hc : 2 * 2 ^ L ≤ 2 ^ l).
    { rewrite <- Z.pow_succ_r by lia. apply Z.pow_le_mono_r; lia. }
    assert (d * 2 ^ L < 2 * 2 ^ Z.log2 d * 2 ^ L) by nia.
    assert (2 * 2 ^ L * 2 ^ Z.log2 d ≤ 2 ^ l * 2 ^ Z.log2 d) by nia.
    lia. }
  assert (scaled_le d l n = false) as ->.
  { unfold scaled_le. rewrite Heq, (proj2 (Z.leb_le 0 L)) by lia.
    apply Z.leb_gt. lia. }
  lia.
Qed.

(** The error of [nearest] when the exponent is negative: half a unit of
    the last place. *)
Lemma nearest_error n d m e :
  0 < d → n ≠ 0 → nearest n d = (m, e) → e < 0 →
  - d ≤ 2 * (n * 2 ^ (- e) - m * d) ≤ d.
Proof.
  intros Hd Hn. unfold nearest.
  rewrite (proj2 (Z.eqb_neq n 0)) by done.
  intros [= <- <-] He.
  rewrite (proj2 (Z.leb_gt 0 _)) by done.
  by apply round_half_even_error.
Qed.

Lemma nearest_exponent n d m e L :
  0 < d → n ≠ 0 → nearest n d = (m, e) → 0 ≤ L → Z.abs n < d * 2 ^ L →
  e ≤ Z.max (L - 53) (-1074).
Proof.
  intros Hd Hn. unfold nearest.
  rewrite (proj2 (Z.eqb_neq n 0)) by done.
  intros [= _ <-] HL Hlt.
  pose proof (log2_ratio_lt (Z.abs n) d L ltac:(lia) Hd HL Hlt). lia.
Qed.

(** The whole microseconds that [timeval] finds for a fraction. *)
Lemma rounded_fraction_bounds fr e :
  e < 0 → Z.abs fr < 2 ^ (- e) →
  - 1000000 ≤ float_round (float_mul_1e6 (fr, e)) ≤ 1000000.
Proof.
  intros He Hfr. unfold float_mul_1e6.
  rewrite (proj2 (Z.leb_gt 0 e)) by done.
  set (D := 2 ^ (- e)) in *.
  assert (HD : 0 < D) by (apply Z.pow_pos_nonneg; lia).
  destruct (decide (fr = 0)) as [->|Hnz]; [simpl; lia|].
  destruct (nearest (fr * 1000000) D) as [m2 e2] eqn:Hnear.
  assert (He2 : e2 ≤ -33).
  { pose proof (nearest_exponent (fr * 1000000) D m2 e2 20 HD ltac:(lia) Hnear
                  ltac:(lia)) as H.
    change (2 ^ 20) with 1048576 in H. lia. }
  unfold nearest in Hnear.
  rewrite (proj2 (Z.eqb_neq _ 0)) in Hnear by lia.
  injection Hnear as Hm2 He2'. rewrite He2' in Hm2.
  rewrite (proj2 (Z.leb_gt 0 e2)) in Hm2 by lia.
  unfold float_round. rewrite (proj2 (Z.leb_gt 0 e2)) by lia.
  set (D2 := 2 ^ (- e2)) in *.
  assert (HD2 : 0 < D2) by (apply Z.pow_pos_nonneg; lia).
  assert (Hfr' : - D < fr < D) by lia.
  assert (Hlo : - 1000000 * D2 * D ≤ fr * 1000000 * D2) by nia.
  assert (Hhi : fr * 1000000 * D2 ≤ 1000000 * D2 * D) by nia.
  split.
  - apply round_half_even_ge; [done|]. rewrite <- Hm2.
    by apply round_half_even_ge.
  - apply round_half_even_le; [done|]. rewrite <- Hm2.
    by apply round_half_even_le.
Qed.

(** [timeval] always yields a count of microseconds below a second. *)
Lemma timeval_microsecond f : 0 ≤ (timeval f).2 < 1000000.
Proof.
  destruct f as [m e]. unfold timeval, modf.
  destruct (Z.leb_spec 0 e) as [He|He].
  - simpl. lia.
  - assert (HD : 0 < 2 ^ (- e)) by (apply Z.pow_pos_nonneg; lia).
    pose proof (Z.rem_bound_abs m (2 ^ (- e)) ltac:(lia)) as Hrem.
    rewrite (Z.abs_eq (2 ^ (- e))) in Hrem by lia.
    pose proof (rounded_fraction_bounds (Z.rem m (2 ^ (- e))) e He Hrem) as Hk.
    generalize dependent (float_round (float_mul_1e6 (Z.rem m (2 ^ (- e)), e))).
    intros k Hk.
    destruct (Z.leb_spec 1000000 k); [simpl; lia|].
    destruct (Z.ltb_spec k 0); simpl; lia.
Qed.

(** A float within half a unit of the last place of [x / 1000], in a
    binade below [2 ^ 33], gives back [x] to the microsecond. *)
Lemma timeval_exact m e x :
  e ≤ -20 → - 1000 ≤ 2 * (x * 2 ^ (- e) - m * 1000) ≤ 1000 →
  timeval (m, e) = (x / 1000, x mod 1000 * 1000).
Proof.
  intros He Herr. unfold timeval, modf.
  rewrite (proj2 (Z.leb_gt 0 e)) by lia.
  set (D := 2 ^ (- e)) in *.
  assert (HD : 1048576 ≤ D).
  { change 1048576 with (2 ^ 20). apply Z.pow_le_mono_r; lia. }
  pose proof (Z.quot_rem' m D) as Hm.
  pose proof (Z.rem_bound_abs m D ltac:(lia)) as Hrem.
  rewrite (Z.abs_eq D) in Hrem by lia.
  set (ip := Z.quot m D) in *. set (fr := Z.rem m D) in *.
  set (N := 1000 * x - 1000000 * ip).
  assert (HN : float_round (float_mul_1e6 (fr, e)) = N).
  { unfold float_mul_1e6. rewrite (proj2 (Z.leb_gt 0 e)) by lia. fold D.
    destruct (decide (fr = 0)) as [Hz|Hnz].
    { rewrite Hz. simpl. subst N. nia. }
    destruct (nearest (fr * 1000000) D) as [m2 e2] eqn:Hnear.
    assert (He2 : e2 ≤ -33).
    { pose proof (nearest_exponent (fr * 1000000) D m2 e2 20 ltac:(lia)
                    ltac:(lia) Hnear ltac:(lia)) as H.
      change (2 ^ 20) with 1048576 in H. lia. }
    pose proof (nearest_error (fr * 1000000) D m2 e2 ltac:(lia) ltac:(lia)
                  Hnear ltac:(lia)) as Herr2.
    unfold float_round. rewrite (proj2 (Z.leb_gt 0 e2)) by lia.
    set (D2 := 2 ^ (- e2)) in *.
    assert (HD2 : 8589934592 ≤ D2).
    { change 8589934592 with (2 ^ 33). apply Z.pow_le_mono_r; lia. }
    apply round_half_even_unique; [lia|].
    assert (Hdiff : fr * 1000000 * D2 - N * D * D2
                    = 1000 * D2 * (1000 * m - x * D)).
    { subst N. rewrite Hm. ring. }
    assert (Hgap : 1000000 * D2 + D < D2 * D) by nia.
    assert (Hlo : - (D2 * D) < 2 * (m2 - N * D2) * D) by nia.
    assert (Hhi : 2 * (m2 - N * D2) * D < D2 * D) by nia.
    nia. }
  rewrite HN.
  assert (HNr : - 1000000 < N * 1 < 1000000).
  { assert (N * D = 1000 * (x * D - 1000 * m) + 1000000 * fr)
      by (subst N; rewrite Hm; ring).
    nia. }
  destruct (Z.leb_spec 1000000 N); [lia|].
  destruct (Z.ltb_spec N 0); f_equal; subst N; zdiv.
Qed.

(** An integer of milliseconds within [2 ^ 33] seconds of the epoch
    (from 1697 to 2242) divides to a float that [timeval] reads back to
    the microsecond. *)
Lemma timeval_of_ms ms :
  - 8589934592000 < ms < 8589934592000 →
  timeval (nearest ms 1000) = (ms / 1000, ms mod 1000 * 1000).
Proof.
  intros Hms. destruct (decide (ms = 0)) as [->|Hnz]; [vm_compute; reflexivity|].
  destruct (nearest ms 1000) as [m e] eqn:Hn.
  assert (He : e ≤ -20).
  { pose proof (nearest_exponent ms 1000 m e 33 ltac:(lia) Hnz Hn ltac:(lia)) as H.
    change (2 ^ 33) with 8589934592 in H. lia. }
  apply timeval_exact; [done|].
  apply (nearest_error ms 1000 m e); [lia|done|done|lia].
Qed.

(** The same integer read as a double and divided as a float. *)
Lemma timeval_of_double_ms ms :
  - 8589934592000 < ms < 8589934592000 →
  timeval (float_div_1000 (float_of_Z ms)) = (ms / 1000, ms mod 1000 * 1000).
Proof.
  intros Hms. destruct (decide (ms = 0)) as [->|Hnz]; [vm_compute; reflexivity|].
  unfold float_of_Z. destruct (nearest ms 1) as [m0 e0] eqn:Hn0.
  assert (He0 : e0 ≤ -10).
  { pose proof (nearest_exponent ms 1 m0 e0 43 ltac:(lia) Hnz Hn0 ltac:(lia)) as H.
    change (2 ^ 43) with 8796093022208 in H. lia. }
  pose proof (nearest_error ms 1 m0 e0 ltac:(lia) Hnz Hn0 ltac:(lia)) as Hm0.
  assert (Hm0' : m0 = ms * 2 ^ (- e0)) by lia. clear Hm0.
  unfold float_div_1000. rewrite (proj2 (Z.leb_gt 0 e0)) by lia.
  set (D0 := 2 ^ (- e0)) in *.
  assert (HD0 : 0 < D0) by (apply Z.pow_pos_nonneg; lia).
  assert (Hm0nz : m0 ≠ 0) by nia.
  destruct (nearest m0 (1000 * D0)) as [m e] eqn:Hn.
  assert (He : e ≤ -20).
  { pose proof (nearest_exponent m0 (1000 * D0) m e 33 ltac:(lia) Hm0nz Hn
                  ltac:(lia)) as H.
    change (2 ^ 33) with 8589934592 in H.
    assert (Z.abs m0 = Z.abs ms * D0) by (rewrite Hm0', Z.abs_mul; lia).
    assert (Z.abs m0 < 1000 * D0 * 8589934592) by nia. lia. }
  apply timeval_exact; [done|].
  pose proof (nearest_error m0 (1000 * D0) m e ltac:(lia) Hm0nz Hn ltac:(lia))
    as Herr.
  rewrite Hm0' in Herr. nia.
Qed.

(** ** Facts about the calendar years of the local clock *)

Lemma year_of_wall_near_epoch w :
  - 8590280192 ≤ w ≤ 8590280192 → 1697 ≤ year_of_wall w ≤ 2243.
Proof.
  intros Hw. unfold year_of_wall, civil_from_days. cbv zeta. cbn [fst snd].
  assert (Hz : -99425 ≤ w / 86400 ≤ 99425) by zdiv.
  clear Hw. generalize dependent (w / 86400). clear w. intros z Hz.
  destruct (era_split z) as (era & doe & Hsplit & Hdoe & <-).
  replace (z + 719468 - era * 146097) with doe by lia.
  assert (Hera : era = 4 ∨ era = 5) by lia.
  set (yoe := (doe - doe / 1460 + doe / 36524 - doe / 146096) / 365).
  assert (Hyoe : 0 ≤ yoe ≤ 399) by (subst yoe; zdiv).
  assert (Hlow : era = 4 → 97 ≤ yoe) by (intros ->; subst yoe; zdiv).
  assert (Hhigh : era = 5 → yoe ≤ 242) by (intros ->; subst yoe; zdiv).
  clearbody yoe.
  match goal with |- context [if ?c then _ else _] => destruct c end; lia.
Qed.

(** ** Facts about the type of the [ts] column *)



(** One string among the [ts] values makes the column a column of strings. *)
Lemma ts_column_type_string (df : list Log.t) r s :
  r ∈ df → Log.ts r = TsString s → ts_column_type df = StringType.
Proof.
  intros Hr Hs. unfold ts_column_type.
  assert (foldr compatible_type NullType ((type_of_ts ∘ Log.ts) <$> df)
          = StringType) as ->; [|done].
  induction Hr as [r l|r r' l _ IH]; rewrite fmap_cons; cbn [foldr].
  - unfold compose at 1. rewrite Hs. simpl.
    by destruct (foldr _ _ _).
  - rewrite (IH Hs). by destruct (compose _ _ r').
Qed.

(** A column without a string or an integer beyond a long, and with an
    integer, is a column of longs. *)
Lemma ts_column_type_long (df : list Log.t) :
  df ≠ [] →
  Forall (λ r, Log.ts r = TsNull ∨
               ∃ n, Log.ts r = TsLong n ∧ - 2 ^ 63 ≤ n < 2 ^ 63) df →
  (∃ r n, r ∈ df ∧ Log.ts r = TsLong n) →
  ts_column_type df = LongType.
Proof.
  intros _ Hall (r & n & Hr & Hn). unfold ts_column_type.
  assert (Hle : ∀ l : list Log.t,
            Forall (λ r, Log.ts r = TsNull ∨
                         ∃ n, Log.ts r = TsLong n ∧ - 2 ^ 63 ≤ n < 2 ^ 63) l →
            foldr compatible_type NullType ((type_of_ts ∘ Log.ts) <$> l) = NullType ∨
            foldr compatible_type NullType ((type_of_ts ∘ Log.ts) <$> l) = LongType).
  { induction 1 as [|x l Hx _ IH]; [by left|].
    rewrite fmap_cons. cbn [foldr]. unfold compose at 1 3.
    destruct Hx as [->|(k & -> & Hk)]; simpl.
    - destruct IH as [->| ->]; auto.
    - rewrite bool_decide_eq_true_2 by done.
      destruct IH as [->| ->]; auto. }
  assert (foldr compatible_type NullType ((type_of_ts ∘ Log.ts) <$> df)
          = LongType) as ->; [|done].
  revert Hall.
  induction Hr as [r l|r r' l _ IH]; intros [Hhead Htail]%Forall_cons;
    rewrite fmap_cons; cbn [foldr].
  - unfold compose at 1. rewrite Hn in *. simpl.
    destruct Hhead as [?|(k & [= <-] & Hk)]; [done|].
    rewrite bool_decide_eq_true_2 by done.
    by destruct (Hle l Htail) as [->| ->].
  - rewrite (IH Hn Htail). unfold compose.
    destruct Hhead as [->|(k & -> & Hk)]; simpl; [done|].
    by rewrite bool_decide_eq_true_2.
Qed.

(** ** Facts about the time columns *)

Section time_columns.
Variable c : cluster.

Lemma hour_bounds t : 0 ≤ hour c t ≤ 23.
Proof. unfold hour. zdiv. Qed.

Lemma dayofmonth_bounds t : 1 ≤ dayofmonth c t ≤ 31.
Proof. apply civil_from_days_bounds. Qed.

Lemma month_bounds t : 1 ≤ month c t ≤ 12.
Proof. apply civil_from_days_bounds. Qed.

Lemma weekofyear_bounds t : 1 ≤ weekofyear c t ≤ 53.
Proof.
  unfold weekofyear.
  pose proof (day_of_year_civil_bounds (thursday_of_week (local_day c t))).
  zdiv.
Qed.

Lemma dayofweek_bounds t : 1 ≤ dayofweek c t ≤ 7.
Proof. unfold dayofweek. zdiv. Qed.

(** Only an integer literal in a column of longs or of doubles is a
    number for the UDF. *)
Lemma seconds_of_ts_as ty x f :
  seconds_of (ts_as ty x) = Some f →
  ∃ ms, x = TsLong ms ∧
        (ty = LongType ∧ f = nearest ms 1000 ∨
         ty = DoubleType ∧ f = float_div_1000 (float_of_Z ms)).
Proof. destruct x as [|n|s], ty; simpl; intros [= <-]; eauto. Qed.

Lemma utc_to_seconds_Ok w s :
  utc_to_seconds w = Ok s ↔ s = w ∧ 1 ≤ year_of_wall w ≤ 9999.
Proof.
  unfold utc_to_seconds. case_bool_decide; split.
  - by intros [= <-].
  - by intros [-> _].
  - done.
  - by intros [_ ?].
Qed.

Lemma localtime_Ok u w : localtime c u = Ok w → w = u + utcoffset c u.
Proof. unfold localtime. case_bool_decide; [by intros [= <-]|done]. Qed.

(** What [fromtimestamp] returns: the reading of the local clock at the
    second of the float, in a year from 1 to 9999. *)
Lemma fromtimestamp_Ok f dt :
  fromtimestamp c f = Ok dt →
  wall dt = (timeval f).1 + utcoffset c (timeval f).1 ∧
  microsecond dt = (timeval f).2 ∧
  1 ≤ year_of_wall (wall dt) ≤ 9999.
Proof.
  unfold fromtimestamp. destruct (timeval f) as [timet us]. cbn [fst snd].
  case_bool_decide; [|done].
  destruct (localtime c timet) as [w|e] eqn:Hw; [|done].
  apply localtime_Ok in Hw as ->. cbn [mbind result_bind].
  destruct (utc_to_seconds _) as [s|e] eqn:Hs; [|done].
  apply utc_to_seconds_Ok in Hs as [-> Hy]. cbn [mbind result_bind].
  destruct (local c (timet - 86400)) as [p|e]; [|done]. cbn [mbind result_bind].
  destruct (if _ <? 0 then _ else _) as [q|e]; [|done]. cbn [mbind result_bind].
  by intros [= <-].
Qed.

Lemma localtime_Raise u e :
  localtime c u = Raise e → e = PythonException OSError.
Proof. unfold localtime. case_bool_decide; [done|by intros [= <-]]. Qed.

Lemma utc_to_seconds_Raise w e :
  utc_to_seconds w = Raise e → e = PythonException ValueError.
Proof. unfold utc_to_seconds. case_bool_decide; [done|by intros [= <-]]. Qed.

Lemma local_Raise u e :
  local c u = Raise e →
  e = PythonException OSError ∨ e = PythonException ValueError.
Proof.
  unfold local. destruct (localtime c u) as [w|e'] eqn:Hw; cbn [mbind result_bind].
  - intros ?%utc_to_seconds_Raise. auto.
  - intros [= <-]. apply localtime_Raise in Hw. auto.
Qed.

(** [fromtimestamp] raises range errors only. *)
Lemma fromtimestamp_Raise f e :
  fromtimestamp c f = Raise e →
  e = PythonException OverflowError ∨ e = PythonException OSError ∨
  e = PythonException ValueError.
Proof.
  unfold fromtimestamp. destruct (timeval f) as [timet us].
  case_bool_decide; [|intros [= <-]; auto].
  destruct (localtime c timet) as [w|e'] eqn:Hw; cbn [mbind result_bind].
  2:{ intros [= <-]. apply localtime_Raise in Hw. auto. }
  destruct (utc_to_seconds w) as [s|e'] eqn:Hs; cbn [mbind result_bind].
  2:{ intros [= <-]. apply utc_to_seconds_Raise in Hs. auto. }
  destruct (local c (timet - 86400)) as [p|e'] eqn:Hp; cbn [mbind result_bind].
  2:{ intros [= <-]. apply local_Raise in Hp. destruct Hp; auto. }
  destruct (s - p - 86400 <? 0).
  - destruct (local c (timet + _)) as [q|e'] eqn:Hq; cbn [mbind result_bind];
      [discriminate|].
    intros [= <-]. apply local_Raise in Hq. destruct Hq; auto.
  - cbn [mbind result_bind]. discriminate.
Qed.

Lemma get_timestamp_Ok x t :
  get_timestamp c x = Ok t ↔
  ∃ f dt, seconds_of x = Some f ∧ fromtimestamp c f = Ok dt ∧
          t = to_internal c dt.
Proof.
  unfold get_timestamp. split.
  - destruct (seconds_of x) as [f|]; [|done].
    destruct (fromtimestamp c f) as [dt|e] eqn:Hf; [|done].
    intros [= <-]. eauto.
  - intros (f & dt & -> & -> & ->). done.
Qed.

Lemma get_timestamp_Raise x e :
  get_timestamp c x = Raise e → ∃ p, e = PythonException p.
Proof.
  unfold get_timestamp. destruct (seconds_of x) as [f|]; [|intros [= <-]; eauto].
  destruct (fromtimestamp c f) as [dt|e'] eqn:Hf; [done|].
  intros [= <-]. apply fromtimestamp_Raise in Hf as [->|[->| ->]]; eauto.
Qed.

(** A [ts] that the UDF decodes is an integer literal. *)
Lemma get_timestamp_numeric ty x t :
  get_timestamp c (ts_as ty x) = Ok t → ∃ ms, x = TsLong ms.
Proof.
  intros (f & dt & Hf & _)%get_timestamp_Ok.
  apply seconds_of_ts_as in Hf as (ms & -> & _). eauto.
Qed.

Lemma with_time_columns_Ok ty r d :
  with_time_columns c ty r = Ok d ↔
  ∃ t, get_timestamp c (ts_as ty (Log.ts r)) = Ok t ∧ d = timed c r t.
Proof.
  unfold with_time_columns. split.
  - destruct (get_timestamp c _) as [t|e]; simpl; [|done].
    intros [= <-]. eauto.
  - intros (t & -> & ->). done.
Qed.

Lemma with_time_columns_Raise ty r e :
  with_time_columns c ty r = Raise e →
  get_timestamp c (ts_as ty (Log.ts r)) = Raise e.
Proof.
  unfold with_time_columns.
  destruct (get_timestamp c _) as [t|e']; simpl; [done|].
  by intros [= <-].
Qed.

Lemma with_time_columns_logs ty l k :
  mapM (with_time_columns c ty) l = Ok k → Timed.log <$> k = l.
Proof.
  intros H%mapM_Ok. induction H as [|r d l k Hr _ IH]; [done|].
  apply with_time_columns_Ok in Hr as (t & _ & ->). simpl. by f_equal.
Qed.

(** The reading of the local clock at the [start_time] that Spark is
    handed, when [mktime] names a second at which the clock shows the
    reading of the [datetime]. *)
Lemma local_seconds_to_internal dt :
  0 ≤ microsecond dt < 1000000 →
  mktime c (wall dt) + utcoffset c (mktime c (wall dt)) = wall dt →
  local_seconds c (to_internal c dt) = wall dt.
Proof.
  intros Hus Hmk. unfold local_seconds, to_internal.
  replace ((mktime c (wall dt) * 1000000 + microsecond dt) / 1000000)
    with (mktime c (wall dt)) by zdiv.
  exact Hmk.
Qed.

End time_columns.

Section near_epoch.
Variable c : cluster.
Hypothesis offset_within_a_day : ∀ s, - 86400 ≤ utcoffset c s ≤ 86400.

Lemma local_near_epoch u :
  - 8590193792 ≤ u ≤ 8590193792 → local c u = Ok (u + utcoffset c u).
Proof.
  intros Hu. unfold local, localtime.
  pose proof (offset_within_a_day u).
  pose proof (year_of_wall_near_epoch (u + utcoffset c u) ltac:(lia)) as Hy.
  rewrite bool_decide_eq_true_2.
  2:{ change (2 ^ 31) with 2147483648. lia. }
  cbn [mbind result_bind]. apply utc_to_seconds_Ok. lia.
Qed.

(** Within [2 ^ 33] seconds of the epoch, on either side of it,
    [fromtimestamp] returns the reading of the local clock. *)
Lemma fromtimestamp_near_epoch f :
  - 8589934592 ≤ (timeval f).1 ≤ 8589934592 →
  fromtimestamp c f
  = Ok (mk_datetime ((timeval f).1 + utcoffset c (timeval f).1) (timeval f).2).
Proof.
  unfold fromtimestamp. destruct (timeval f) as [timet us]. cbn [fst snd].
  intros Ht.
  rewrite bool_decide_eq_true_2.
  2:{ change (2 ^ 63) with 9223372036854775808. lia. }
  pose proof (offset_within_a_day timet) as Ho.
  pose proof (offset_within_a_day (timet - 86400)) as Hp.
  pose proof (year_of_wall_near_epoch (timet + utcoffset c timet) ltac:(lia)) as Hy.
  unfold localtime. rewrite bool_decide_eq_true_2.
  2:{ change (2 ^ 31) with 2147483648. lia. }
  cbn [mbind result_bind].
  rewrite (proj2 (utc_to_seconds_Ok _ (timet + utcoffset c timet))) by lia.
  cbn [mbind result_bind].
  rewrite (local_near_epoch (timet - 86400)) by lia.
  cbn [mbind result_bind].
  destruct (_ <? 0) eqn:Htr; [|done].
  rewrite local_near_epoch by lia. done.
Qed.

End near_epoch.

(** ** Running the two jobs *)

Lemma output_path_ne (output_data a b : string) :
  a ≠ b → output_data +:+ a ≠ output_data +:+ b.
Proof. intros Hne Heq. by apply (inj _) in Heq. Qed.

Lemma process_song_data_run input_data output_data (fs : storage) rows :
  fs !! song_data_path input_data = Some (SongJson rows) →
  rows ≠ [] →
  process_song_data input_data output_data fs =
  (<[artists_path output_data := ArtistsParquet (artists_table rows)]>
     (<[songs_path output_data := SongsParquet (songs_table rows)]> fs),
   Ok tt).
Proof.
  intros Hin Hrows. unfold process_song_data, mbind, job_bind, read_song_json.
  rewrite Hin. by destruct rows.
Qed.

Lemma process_song_data_missing input_data output_data (fs : storage) :
  fs !! song_data_path input_data = None →
  process_song_data input_data output_data fs = (fs, Raise path_missing).
Proof.
  intros Hin. unfold process_song_data, mbind, job_bind, read_song_json.
  by rewrite Hin.
Qed.

(** An input without a record has no column to select. *)
Lemma process_song_data_no_record input_data output_data (fs : storage) :
  fs !! song_data_path input_data = Some (SongJson []) →
  process_song_data input_data output_data fs = (fs, Raise unresolved_column).
Proof.
  intros Hin. unfold process_song_data, mbind, job_bind, read_song_json.
  by rewrite Hin.
Qed.

(** A run is determined by its storage and its result. *)
Lemma run_Ok {A} (run : storage * result A) (a : A) :
  run.2 = Ok a → run = (run.1, Ok a).
Proof. destruct run as [fs r]. simpl. by intros ->. Qed.

Section runs.
Variable c : cluster.
Implicit Types (fs : storage) (input_data output_data : string).

Lemma process_log_data_missing input_data output_data fs :
  fs !! log_data_path input_data = None →
  process_log_data c input_data output_data fs = (fs, Raise path_missing).
Proof.
  intros Hin. unfold process_log_data, mbind, job_bind, read_log_json.
  by rewrite Hin.
Qed.

Lemma process_log_data_no_record input_data output_data fs :
  fs !! log_data_path input_data = Some (LogJson []) →
  process_log_data c input_data output_data fs = (fs, Raise unresolved_column).
Proof.
  intros Hin. unfold process_log_data, mbind, job_bind, read_log_json.
  by rewrite Hin.
Qed.

(** What a run does once the log records are found. *)
Lemma process_log_data_run input_data output_data fs logs :
  fs !! log_data_path input_data = Some (LogJson logs) →
  logs ≠ [] →
  let dataframe := where_ is_next_song logs in
  let fs1 := <[users_path output_data := UsersParquet (users_table dataframe)]> fs in
  process_log_data c input_data output_data fs =
  match mapM (with_time_columns c (ts_column_type logs)) dataframe with
  | Raise e =>
      (if clears_first c then delete (time_path output_data) fs1 else fs1, Raise e)
  | Ok dataframe =>
      let fs2 := <[time_path output_data := TimeParquet (time_table dataframe)]> fs1 in
      match fs !! songs_path output_data with
      | Some (SongsParquet rows) =>
          match partition_discovery c rows with
          | Ok song_df =>
              (<[songplays_path output_data :=
                   SongplaysParquet (songplays_table dataframe song_df)]> fs2, Ok tt)
          | Raise e => (fs2, Raise e)
          end
      | Some _ => (fs2, Raise unresolved_column)
      | None => (fs2, Raise path_missing)
      end
  end.
Proof.
  intros Hin Hlogs. cbv zeta.
  unfold process_log_data, mbind at 1, job_bind at 1, read_log_json.
  rewrite Hin. destruct logs as [|r logs]; [done|].
  unfold mbind, job_bind, write_parquet, computed_for, read_songs_parquet.
  destruct (mapM _ _) as [dataframe|e]; [|done].
  rewrite !lookup_insert_ne
    by (apply output_path_ne; intros [=]).
  by destruct (fs !! songs_path output_data) as [[]|].
Qed.

(** A run that returns normally found its two inputs and wrote three tables. *)
Lemma process_log_data_Ok input_data output_data fs fs' logs :
  fs !! log_data_path input_data = Some (LogJson logs) →
  process_log_data c input_data output_data fs = (fs', Ok tt) →
  ∃ dataframe rows song_df,
    logs ≠ [] ∧
    mapM (with_time_columns c (ts_column_type logs)) (where_ is_next_song logs)
      = Ok dataframe ∧
    fs !! songs_path output_data = Some (SongsParquet rows) ∧
    partition_discovery c rows = Ok song_df ∧
    fs' !! users_path output_data =
      Some (UsersParquet (users_table (where_ is_next_song logs))) ∧
    fs' !! time_path output_data = Some (TimeParquet (time_table dataframe)) ∧
    fs' !! songplays_path output_data =
      Some (SongplaysParquet (songplays_table dataframe song_df)).
Proof.
  intros Hin.
  destruct (decide (logs = [])) as [->|Hlogs].
  { by rewrite process_log_data_no_record. }
  rewrite (process_log_data_run _ _ _ _ Hin Hlogs). cbv zeta.
  destruct (mapM _ _) as [dataframe|e]; [|done].
  destruct (fs !! songs_path output_data) as [[]|]; try done.
  destruct (partition_discovery c rows) as [song_df|e] eqn:Hsongs; [|done].
  intros [= <-]. eexists _, _, _. split_and!; [done..| | |].
  - rewrite !lookup_insert_ne by (apply output_path_ne; intros [=]).
    apply lookup_insert_eq.
  - rewrite lookup_insert_ne by (apply output_path_ne; intros [=]).
    apply lookup_insert_eq.
  - apply lookup_insert_eq.
Qed.

(** The users table is in place as soon as the log records are found. *)
Lemma process_log_data_users input_data output_data fs logs :
  fs !! log_data_path input_data = Some (LogJson logs) →
  logs ≠ [] →
  (process_log_data c input_data output_data fs).1 !! users_path output_data
  = Some (UsersParquet (users_table (where_ is_next_song logs))).
Proof.
  intros Hin Hlogs. rewrite (process_log_data_run _ _ _ _ Hin Hlogs). cbv zeta.
  destruct (mapM _ _) as [dataframe|e].
  - destruct (fs !! songs_path output_data) as [[]|]; simpl;
      try destruct (partition_discovery c rows); simpl;
      rewrite ?(lookup_insert_ne _ (songplays_path output_data))
        by (apply output_path_ne; intros [=]);
      rewrite lookup_insert_ne by (apply output_path_ne; intros [=]);
      apply lookup_insert_eq.
  - destruct (clears_first c); simpl; [|apply lookup_insert_eq].
    rewrite lookup_delete_ne by (apply output_path_ne; intros [=]).
    apply lookup_insert_eq.
Qed.

End runs.

(** ** Facts about the conditions *)

Lemma holds_sql_eq {A} `{EqDecision A} (x y : option A) :
  holds (sql_eq x y) = true ↔ ∃ a, x = Some a ∧ y = Some a.
Proof.
  destruct x as [a|], y as [b|]; simpl; try (split; [done|by intros (? & ? & ?)]).
  case_bool_decide; simpl; split; try done.
  - subst. eauto.
  - intros (c & [= ->] & [= ->]). done.
Qed.

Lemma holds_sql_and p q :
  holds (sql_and p q) = true ↔ holds p = true ∧ holds q = true.
Proof. destruct p as [[]|], q as [[]|]; simpl; split; (done || by intros []). Qed.

Lemma holds_is_next_song r :
  holds (is_next_song r) = true ↔ Log.page r = Some "NextSong"%string.
Proof.
  unfold is_next_song. rewrite holds_sql_eq. split.
  - by intros (a & -> & [= ->]).
  - intros ->. eauto.
Qed.

Lemma holds_song_matches r song :
  holds (song_matches r song) = true ↔
  ∃ title artist_name duration,
    Log.song r = Some title ∧ SongDim.title song = Some title ∧
    Log.artist r = Some artist_name ∧ SongDim.artist_name song = Some artist_name ∧
    Log.length r = Some duration ∧ SongDim.duration song = Some duration.
Proof.
  unfold song_matches. rewrite !holds_sql_and, !holds_sql_eq. split.
  - intros [[(t & ? & ?) (a & ? & ?)] (d & ? & ?)]. by exists t, a, d.
  - intros (t & a & d & ? & ? & ? & ? & ? & ?). eauto 10.
Qed.

Lemma elem_of_where_ {A} (c : A → option bool) df x :
  x ∈ where_ c df ↔ holds (c x) = true ∧ x ∈ df.
Proof. unfold where_. by rewrite list_elem_of_filter. Qed.

Lemma where_idemp {A} (c : A → option bool) df :
  where_ c (where_ c df) = where_ c df.
Proof.
  unfold where_. induction df as [|x l IH]; [done|].
  rewrite filter_cons. case_decide; [|done].
  rewrite filter_cons_True by done. by f_equal.
Qed.

Lemma where_drops {A} (c : A → option bool) l1 x l2 :
  holds (c x) = false → where_ c (l1 ++ x :: l2) = where_ c (l1 ++ l2).
Proof.
  intros Hx. unfold where_. rewrite !filter_app, filter_cons_False; [done|].
  by rewrite Hx.
Qed.


(** ** Further facts about the time columns *)

Lemma sum_list_with_logs (g : Log.t → nat) (dataframe : list Timed.t) :
  sum_list_with (λ df, g (Timed.log df)) dataframe =
  sum_list_with g (Timed.log <$> dataframe).
Proof. induction dataframe as [|d l IH]; simpl; [done|]. by rewrite IH. Qed.


Lemma days_from_civil_shift y m d k :
  days_from_civil (y, m, d + k) = days_from_civil (y, m, d) + k.
Proof. unfold days_from_civil. lia. Qed.

Section time_facts.
Variable c : cluster.

Lemma civil_date_of_local_day t :
  days_from_civil (year c t, month c t, dayofmonth c t)
  = local_day c t.
Proof.
  unfold year, month, dayofmonth.
  pose proof (days_from_civil_from_days (local_day c t)) as Hback.
  by destruct (civil_from_days (local_day c t)) as [[y m] dd].
Qed.

Lemma weekofyear_from_january t :
  weekofyear c t =
  (thursday_of_week (local_day c t)
   - days_from_civil
       ((civil_from_days (thursday_of_week (local_day c t))).1.1, 1, 1))
  / 7 + 1.
Proof.
  unfold weekofyear.
  generalize (thursday_of_week (local_day c t)).
  intros thursday.
  pose proof (civil_from_days_bounds thursday) as [Hm _].
  pose proof (days_from_civil_from_days thursday) as Hback.
  destruct (civil_from_days thursday) as [[y m] dd].
  cbn [fst snd] in *.
  rewrite (day_of_year_from_january y m dd Hm), Hback.
  f_equal. f_equal. lia.
Qed.

Lemma select_time_timed r r' t :
  select_time (timed c r' t) = select_time (timed c r t).
Proof.
  unfold select_time, timed.
  cbn [Timed.start_time Timed.hour Timed.day Timed.week Timed.month
       Timed.year Timed.weekday].
  reflexivity.
Qed.

Lemma dayofweek_sunday_first t :
  dayofweek c t = sunday_first (day_name_of (local_day c t)).
Proof.
  unfold dayofweek, day_name_of.
  generalize (local_day c t). intros z.
  assert (Hz : 0 ≤ z mod 7 < 7) by zdiv.
  assert (z mod 7 = 0 ∨ z mod 7 = 1 ∨ z mod 7 = 2 ∨ z mod 7 = 3 ∨
          z mod 7 = 4 ∨ z mod 7 = 5 ∨ z mod 7 = 6) as Hc by lia.
  destruct_or!; rewrite Hc; cbn [sunday_first]; zdiv.
Qed.


(** The Thursday of the week of a day is a Thursday. *)
Lemma thursday_of_week_name z : day_name_of (thursday_of_week z) = Thursday.
Proof.
  unfold day_name_of, thursday_of_week.
  replace ((z - (z + 3) mod 7 + 3) mod 7) with 0 by zdiv. done.
Qed.

(** The ISO 8601 week number counted from the week of 4 January: the
    Thursday of week [w] is [w - 1] weeks after the Thursday of the week
    that holds 4 January of the year of that Thursday. *)
Lemma weekofyear_from_fourth_of_january t :
  let thursday := thursday_of_week (local_day c t) in
  let iso_year := (civil_from_days thursday).1.1 in
  thursday
  = thursday_of_week (days_from_civil (iso_year, 1, 4)) + 7 * (weekofyear c t - 1).
Proof.
  cbv zeta. rewrite weekofyear_from_january.
  generalize (thursday_of_week_spec (local_day c t)).
  generalize (thursday_of_week (local_day c t)). intros thursday (Hthu & _ & _).
  pose proof (civil_from_days_bounds thursday) as [Hm _].
  pose proof (days_from_civil_from_days thursday) as Hback.
  pose proof (day_of_year_civil_bounds thursday) as Hdoy.
  destruct (civil_from_days thursday) as [[y m] dd]. cbn [fst snd] in *.
  rewrite (day_of_year_from_january y m dd Hm), Hback in Hdoy.
  replace (y, 1, 4) with (y, 1, 1 + 3) by done.
  rewrite days_from_civil_shift.
  generalize dependent (days_from_civil (y, 1, 1)). intros jan1 Hdoy.
  unfold thursday_of_week. zdiv.
Qed.

End time_facts.

(** [fromtimestamp] depends on the cluster through its zone only. *)
Lemma fromtimestamp_zone (c c' : cluster) f :
  utcoffset c' = utcoffset c → fromtimestamp c' f = fromtimestamp c f.
Proof. intros Hz. unfold fromtimestamp, local, localtime. by rewrite Hz. Qed.

(** Where [mktime] names a second at which the clock shows the reading of
    the [datetime], the six columns are those of the reading, whichever
    second that is. *)
Lemma time_columns_of_reading (c : cluster) dt :
  0 ≤ microsecond dt < 1000000 →
  mktime c (wall dt) + utcoffset c (mktime c (wall dt)) = wall dt →
  (hour c (to_internal c dt), dayofmonth c (to_internal c dt),
   weekofyear c (to_internal c dt), month c (to_internal c dt),
   year c (to_internal c dt), dayofweek c (to_internal c dt))
  = (wall dt mod 86400 / 3600,
     (civil_from_days (wall dt / 86400)).2,
     (day_of_year (civil_from_days (thursday_of_week (wall dt / 86400))) - 1) / 7 + 1,
     (civil_from_days (wall dt / 86400)).1.2,
     (civil_from_days (wall dt / 86400)).1.1,
     (wall dt / 86400 + 4) mod 7 + 1).
Proof.
  intros Hus Hmk.
  unfold hour, dayofmonth, weekofyear, month, year, dayofweek, local_day.
  by rewrite (local_seconds_to_internal c dt Hus Hmk).
Qed.

(** ** The song and artist tables *)

(** C6: the songs and artists tables never hold the same row twice and
    hold every projected row of the input; deduplicating either table
    again, or extracting from records whose projections are already free
    of duplicates, changes nothing: rows are merged only when they agree
    on every projected column. An input with records is extracted and
    both tables are written. *)
Theorem song_artist_tables_deduplicated (dataframe : list Song.t) :
  NoDup (songs_table dataframe) ∧
  NoDup (artists_table dataframe) ∧
  dropDuplicates (songs_table dataframe) = songs_table dataframe ∧
  dropDuplicates (artists_table dataframe) = artists_table dataframe ∧
  (NoDup (select_song <$> dataframe) →
   songs_table dataframe = select_song <$> dataframe) ∧
  (NoDup (select_artist <$> dataframe) →
   artists_table dataframe = select_artist <$> dataframe) ∧
  (∀ row, row ∈ songs_table dataframe ↔ ∃ r, r ∈ dataframe ∧ row = select_song r) ∧
  (∀ row, row ∈ artists_table dataframe ↔
          ∃ r, r ∈ dataframe ∧ row = select_artist r) ∧
  ∀ input_data output_data (fs : storage),
    fs !! song_data_path input_data = Some (SongJson dataframe) →
    dataframe ≠ [] →
    ∃ fs', process_song_data input_data output_data fs = (fs', Ok tt) ∧
           fs' !! songs_path output_data = Some (SongsParquet (songs_table dataframe)) ∧
           fs' !! artists_path output_data =
             Some (ArtistsParquet (artists_table dataframe)).
Proof.
  unfold songs_table, artists_table.
  split; [apply dropDuplicates_NoDup|].
  split; [apply dropDuplicates_NoDup|].
  split; [apply dropDuplicates_idemp|].
  split; [apply dropDuplicates_idemp|].
  split; [apply dropDuplicates_NoDup_id|].
  split; [apply dropDuplicates_NoDup_id|].
  split.
  { intros row. rewrite elem_of_dropDuplicates, list_elem_of_fmap.
    split; intros (r & ? & ?); by exists r. }
  split.
  { intros row. rewrite elem_of_dropDuplicates, list_elem_of_fmap.
    split; intros (r & ? & ?); by exists r. }
  intros input_data output_data fs Hin Hrows. eexists. split.
  - by apply process_song_data_run.
  - split; [|apply lookup_insert_eq].
    rewrite lookup_insert_ne by (apply output_path_ne; intros [=]).
    apply lookup_insert_eq.
Qed.

(** C8, as the code has it: two song records with the same [song_id] and
    different titles both reach the songs table, as two different rows
    with that [song_id]; when they are the whole input the table has
    exactly two rows. *)
Theorem same_id_different_title_kept_apart (dataframe : list Song.t) (r1 r2 : Song.t) :
  r1 ∈ dataframe → r2 ∈ dataframe →
  Song.song_id r1 = Song.song_id r2 →
  Song.title r1 ≠ Song.title r2 →
  select_song r1 ∈ songs_table dataframe ∧
  select_song r2 ∈ songs_table dataframe ∧
  select_song r1 ≠ select_song r2 ∧
  SongDim.song_id (select_song r1) = SongDim.song_id (select_song r2) ∧
  (2 ≤ length (filter (λ row, SongDim.song_id row = Song.song_id r1)
                      (songs_table dataframe)))%nat ∧
  length (songs_table [r1; r2]) = 2%nat.
Proof.
  intros H1 H2 Hid Htitle.
  assert (Hne : select_song r1 ≠ select_song r2).
  { intros Heq. apply Htitle. by injection Heq. }
  assert (Hin1 : select_song r1 ∈ songs_table dataframe).
  { by apply elem_of_dropDuplicates, list_elem_of_fmap_2. }
  assert (Hin2 : select_song r2 ∈ songs_table dataframe).
  { by apply elem_of_dropDuplicates, list_elem_of_fmap_2. }
  split_and!; try done.
  - set (same := filter _ _).
    assert (Hs1 : select_song r1 ∈ same) by (by apply list_elem_of_filter).
    assert (Hs2 : select_song r2 ∈ same) by (by apply list_elem_of_filter).
    destruct same as [|a [|b l]]; simpl; [|exfalso|lia].
    + by apply elem_of_nil in Hs1.
    + apply list_elem_of_singleton in Hs1, Hs2. congruence.
  - unfold songs_table, dropDuplicates. simpl.
    destruct (decide_rel _ _ _) as [Hin|_]; [|done].
    apply list_elem_of_singleton in Hin. done.
Qed.


(** ** The tables of [process_log_data] *)

Section log_tables.
Variable c : cluster.
Implicit Types (fs : storage) (input_data output_data : string).

(** C9: two play records of one user on two levels give two different
    rows of the users table, both under that user's id; the table never
    holds a row twice, so records that project to the same row give one. *)
Theorem level_change_keeps_two_user_rows input_data output_data fs logs r1 r2 :
  fs !! log_data_path input_data = Some (LogJson logs) →
  r1 ∈ logs → r2 ∈ logs →
  Log.page r1 = Some "NextSong"%string →
  Log.page r2 = Some "NextSong"%string →
  Log.userId r1 = Log.userId r2 →
  Log.level r1 ≠ Log.level r2 →
  ∃ users,
    (process_log_data c input_data output_data fs).1 !! users_path output_data
      = Some (UsersParquet users) ∧
    select_user r1 ∈ users ∧ select_user r2 ∈ users ∧
    select_user r1 ≠ select_user r2 ∧
    UserDim.user_id (select_user r1) = UserDim.user_id (select_user r2) ∧
    NoDup users ∧
    (∀ r, r ∈ logs → Log.page r = Some "NextSong"%string →
          length (filter (λ row, row = select_user r) users) = 1%nat).
Proof.
  intros Hin H1 H2 Hp1 Hp2 Hid Hlevel.
  assert (Hlogs : logs ≠ []) by (intros ->; by apply elem_of_nil in H1).
  eexists. split; [by apply process_log_data_users|].
  assert (Hkept : ∀ r, r ∈ logs → Log.page r = Some "NextSong"%string →
            select_user r ∈ users_table (where_ is_next_song logs)).
  { intros r Hr Hp. apply elem_of_dropDuplicates, list_elem_of_fmap_2.
    apply elem_of_where_. by rewrite holds_is_next_song. }
  split_and!; auto.
  - intros Heq. apply Hlevel. by injection Heq.
  - apply dropDuplicates_NoDup.
  - intros r Hr Hp. apply NoDup_occurs_once; [apply dropDuplicates_NoDup|auto].
Qed.

(** C1, as the code has it: the songplays table has one row for each play
    record without a partner in the songs table and one row per partner
    for the others; so it has at least as many rows as there are play
    records, and exactly as many when no play record has two partners.
    The songs table is the one that [spark.read.parquet] yields. *)
Theorem songplays_count input_data output_data fs fs' logs rows song_df plays :
  fs !! log_data_path input_data = Some (LogJson logs) →
  fs !! songs_path output_data = Some (SongsParquet rows) →
  partition_discovery c rows = Ok song_df →
  process_log_data c input_data output_data fs = (fs', Ok tt) →
  fs' !! songplays_path output_data = Some (SongplaysParquet plays) →
  length plays =
    sum_list_with (λ r, 1 `max` length (partners song_matches song_df r))%nat
                  (where_ is_next_song logs) ∧
  (length (where_ is_next_song logs) ≤ length plays)%nat ∧
  (Forall (λ r, (length (partners song_matches song_df r) ≤ 1)%nat)
          (where_ is_next_song logs) →
   length plays = length (where_ is_next_song logs)).
Proof.
  intros Hin Hrows Hsongs Hrun Hplays.
  destruct (process_log_data_Ok _ _ _ _ _ _ Hin Hrun)
    as (dataframe & rows' & song_df' & _ & Hmap & Hrows' & Hsongs' & _ & _ & Hplays').
  rewrite Hrows in Hrows'. injection Hrows' as <-.
  rewrite Hsongs in Hsongs'. injection Hsongs' as <-.
  rewrite Hplays in Hplays'. injection Hplays' as ->.
  pose proof (with_time_columns_logs _ _ _ _ Hmap) as Hlogs.
  unfold songplays_table. rewrite length_fmap, <- Hlogs.
  split_and!.
  - rewrite length_left_join. apply (sum_list_with_logs
      (λ r, 1 `max` length (partners song_matches song_df r))%nat).
  - rewrite length_fmap. apply left_join_keeps_left.
  - intros Hone. rewrite length_fmap. apply left_join_at_most_one.
    by apply Forall_fmap in Hone.
Qed.

(** The partners of a play record are those of its log record. *)
Lemma partners_timed (song_df : list SongDim.t) r t :
  partners (λ df song, song_matches (Timed.log df) song) song_df (timed c r t)
  = partners song_matches song_df r.
Proof. reflexivity. Qed.

(** The songplays rows of one play record: one for each partner, with the
    keys of the partner, or one with null keys when there is none. *)
Lemma songplays_of_one_play (song_df : list SongDim.t) r t :
  songplays_table [timed c r t] song_df =
  match partners song_matches song_df r with
  | [] => [songplay_of c r t None None]
  | matched =>
      (λ song, songplay_of c r t (SongDim.song_id song) (SongDim.artist_id song))
        <$> matched
  end.
Proof.
  unfold songplays_table, left_join. rewrite bind_singleton.
  unfold join_row. rewrite partners_timed.
  destruct (partners song_matches song_df r) as [|b l]; [done|].
  rewrite <- list_fmap_compose. done.
Qed.

(** C2: a play record that joins with no row of the songs table gives
    exactly one songplays row; its [song_id] and [artist_id] are null and
    its other columns are those of the record and of the [start_time]
    that the UDF decoded from its [ts]. *)
Theorem unmatched_play_has_null_keys
    input_data output_data fs fs' logs rows song_df plays r :
  fs !! log_data_path input_data = Some (LogJson logs) →
  fs !! songs_path output_data = Some (SongsParquet rows) →
  partition_discovery c rows = Ok song_df →
  process_log_data c input_data output_data fs = (fs', Ok tt) →
  fs' !! songplays_path output_data = Some (SongplaysParquet plays) →
  r ∈ logs →
  Log.page r = Some "NextSong"%string →
  Forall (λ song, holds (song_matches r song) = false) song_df →
  ∃ ms start_time,
    Log.ts r = TsLong ms ∧
    get_timestamp c (ts_as (ts_column_type logs) (Log.ts r)) = Ok start_time ∧
    songplays_table [timed c r start_time] song_df
      = [songplay_of c r start_time None None] ∧
    songplay_of c r start_time None None ∈ plays ∧
    SongPlay.song_id (songplay_of c r start_time None None) = None ∧
    SongPlay.artist_id (songplay_of c r start_time None None) = None ∧
    SongPlay.start_time (songplay_of c r start_time None None) = start_time ∧
    SongPlay.user_id (songplay_of c r start_time None None) = Log.userId r ∧
    SongPlay.level (songplay_of c r start_time None None) = Log.level r ∧
    SongPlay.session_id (songplay_of c r start_time None None) = Log.sessionId r ∧
    SongPlay.location (songplay_of c r start_time None None) = Log.location r ∧
    SongPlay.user_agent (songplay_of c r start_time None None) = Log.userAgent r ∧
    SongPlay.year (songplay_of c r start_time None None) = year c start_time ∧
    SongPlay.month (songplay_of c r start_time None None) = month c start_time.
Proof.
  intros Hin Hrows Hsongs Hrun Hplays Hr Hpage Hnone.
  destruct (process_log_data_Ok _ _ _ _ _ _ Hin Hrun)
    as (dataframe & rows' & song_df' & _ & Hmap & Hrows' & Hsongs' & _ & _ & Hplays').
  rewrite Hrows in Hrows'. injection Hrows' as <-.
  rewrite Hsongs in Hsongs'. injection Hsongs' as <-.
  rewrite Hplays in Hplays'. injection Hplays' as ->.
  assert (Hfiltered : r ∈ where_ is_next_song logs).
  { apply elem_of_where_. by rewrite holds_is_next_song. }
  destruct (mapM_Ok_elem_inv _ _ _ _ Hmap Hfiltered) as (d & Hd & Hrd).
  apply with_time_columns_Ok in Hrd as (t & Ht & ->).
  destruct (get_timestamp_numeric _ _ _ _ Ht) as [ms Hms].
  exists ms, t. split; [done|]. split; [done|].
  assert (Hpartners : partners song_matches song_df r = []).
  { unfold partners. clear -Hnone.
    induction Hnone as [|song l Hsong _ IH]; [done|].
    rewrite filter_cons_False; [done|]. by rewrite Hsong. }
  split; [by rewrite songplays_of_one_play, Hpartners|].
  split; [|done].
  unfold songplays_table.
  apply (list_elem_of_fmap_2' _ _ (timed c r t, None)); [|done].
  by apply elem_of_left_join_unmatched.
Qed.

(** C7: a play record whose song, artist and length are the title, artist
    name and duration of a row of the songs table gives a songplays row
    that carries the [song_id] and [artist_id] of that row; the rows that
    the record gives are those of its partners, one for each. *)
Theorem matched_play_carries_song_keys
    input_data output_data fs fs' logs rows song_df plays r song
    title artist_name duration song_id artist_id :
  fs !! log_data_path input_data = Some (LogJson logs) →
  fs !! songs_path output_data = Some (SongsParquet rows) →
  partition_discovery c rows = Ok song_df →
  process_log_data c input_data output_data fs = (fs', Ok tt) →
  fs' !! songplays_path output_data = Some (SongplaysParquet plays) →
  r ∈ logs →
  Log.page r = Some "NextSong"%string →
  song ∈ song_df →
  Log.song r = Some title → SongDim.title song = Some title →
  Log.artist r = Some artist_name → SongDim.artist_name song = Some artist_name →
  Log.length r = Some duration → SongDim.duration song = Some duration →
  SongDim.song_id song = Some song_id →
  SongDim.artist_id song = Some artist_id →
  ∃ ms start_time,
    Log.ts r = TsLong ms ∧
    get_timestamp c (ts_as (ts_column_type logs) (Log.ts r)) = Ok start_time ∧
    songplay_of c r start_time (Some song_id) (Some artist_id) ∈ plays ∧
    song ∈ partners song_matches song_df r ∧
    songplays_table [timed c r start_time] song_df
      = (λ song, songplay_of c r start_time (SongDim.song_id song)
                             (SongDim.artist_id song))
        <$> partners song_matches song_df r ∧
    (∀ play, play ∈ songplays_table [timed c r start_time] song_df → play ∈ plays).
Proof.
  intros Hin Hrows Hsongs Hrun Hplays Hr Hpage Hsong Ht1 Ht2 Ha1 Ha2 Hd1 Hd2
    Hsid Haid.
  destruct (process_log_data_Ok _ _ _ _ _ _ Hin Hrun)
    as (dataframe & rows' & song_df' & _ & Hmap & Hrows' & Hsongs' & _ & _ & Hplays').
  rewrite Hrows in Hrows'. injection Hrows' as <-.
  rewrite Hsongs in Hsongs'. injection Hsongs' as <-.
  rewrite Hplays in Hplays'. injection Hplays' as ->.
  assert (Hfiltered : r ∈ where_ is_next_song logs).
  { apply elem_of_where_. by rewrite holds_is_next_song. }
  destruct (mapM_Ok_elem_inv _ _ _ _ Hmap Hfiltered) as (d & Hd & Hrd).
  apply with_time_columns_Ok in Hrd as (t & Ht & ->).
  destruct (get_timestamp_numeric _ _ _ _ Ht) as [ms Hms].
  exists ms, t. split; [done|]. split; [done|].
  assert (Hmatch : holds (song_matches r song) = true).
  { apply holds_song_matches. eauto 10. }
  assert (Hpartner : song ∈ partners song_matches song_df r).
  { unfold partners. by apply list_elem_of_filter. }
  split_and!.
  - unfold songplays_table.
    apply (list_elem_of_fmap_2' _ _ (timed c r t, Some song)).
    + by apply elem_of_left_join_matched.
    + unfold songplay_of. simpl. by rewrite Hsid, Haid.
  - done.
  - rewrite songplays_of_one_play.
    by destruct (partners song_matches song_df r); [apply elem_of_nil in Hpartner|].
  - intros play. unfold songplays_table.
    intros ([d' osong] & -> & Hj)%list_elem_of_fmap.
    apply list_elem_of_fmap_2.
    unfold left_join in *. rewrite bind_singleton in Hj.
    apply list_elem_of_bind. exists (timed c r t). by split.
Qed.

End log_tables.

Section log_times.
Variable c : cluster.
Implicit Types (fs : storage) (input_data output_data : string).

(** C5: every row of the users, time and songplays tables is made from a
    log record whose page is ["NextSong"], and a run on any other log
    with the same ["NextSong"] records writes the same three tables, as
    long as that log has a record and gives the [ts] column the same
    type: the other records are read for the schema and for nothing
    else. *)
Theorem only_next_song_records_used
    input_data output_data fs fs' logs users times plays :
  fs !! log_data_path input_data = Some (LogJson logs) →
  process_log_data c input_data output_data fs = (fs', Ok tt) →
  fs' !! users_path output_data = Some (UsersParquet users) →
  fs' !! time_path output_data = Some (TimeParquet times) →
  fs' !! songplays_path output_data = Some (SongplaysParquet plays) →
  (∀ row, row ∈ users →
     ∃ r, r ∈ logs ∧ Log.page r = Some "NextSong"%string ∧ row = select_user r) ∧
  (∀ row, row ∈ times →
     ∃ r start_time,
       r ∈ logs ∧ Log.page r = Some "NextSong"%string ∧
       get_timestamp c (ts_as (ts_column_type logs) (Log.ts r)) = Ok start_time ∧
       row = select_time (timed c r start_time)) ∧
  (∀ row, row ∈ plays →
     ∃ r start_time song,
       r ∈ logs ∧ Log.page r = Some "NextSong"%string ∧
       get_timestamp c (ts_as (ts_column_type logs) (Log.ts r)) = Ok start_time ∧
       row = select_songplay (timed c r start_time, song)) ∧
  ∀ logs', logs' ≠ [] →
    ts_column_type logs' = ts_column_type logs →
    where_ is_next_song logs' = where_ is_next_song logs →
    ∃ fs'',
      process_log_data c input_data output_data
        (<[log_data_path input_data := LogJson logs']> fs) = (fs'', Ok tt) ∧
      fs'' !! users_path output_data = Some (UsersParquet users) ∧
      fs'' !! time_path output_data = Some (TimeParquet times) ∧
      fs'' !! songplays_path output_data = Some (SongplaysParquet plays).
Proof.
  intros Hin Hrun Husers Htimes Hplays.
  destruct (process_log_data_Ok _ _ _ _ _ _ Hin Hrun)
    as (dataframe & rows & song_df & Hlogs & Hmap & Hrows & Hsongs
        & Husers' & Htimes' & Hplays').
  rewrite Husers in Husers'. injection Husers' as ->.
  rewrite Htimes in Htimes'. injection Htimes' as ->.
  rewrite Hplays in Hplays'. injection Hplays' as ->.
  assert (Hsource : ∀ d, d ∈ dataframe →
            ∃ r t, r ∈ logs ∧ Log.page r = Some "NextSong"%string ∧
                   get_timestamp c (ts_as (ts_column_type logs) (Log.ts r)) = Ok t ∧
                   d = timed c r t).
  { intros d Hd. destruct (mapM_Ok_elem _ _ _ _ Hmap Hd) as (r & Hr & Hrd).
    apply elem_of_where_ in Hr as [Hp%holds_is_next_song Hr].
    apply with_time_columns_Ok in Hrd as (t & Ht & ->). by exists r, t. }
  split_and!.
  - intros row Hrow. unfold users_table in Hrow.
    rewrite elem_of_dropDuplicates in Hrow.
    apply list_elem_of_fmap in Hrow as (r & -> & Hr).
    apply elem_of_where_ in Hr as [Hp%holds_is_next_song Hr]. by exists r.
  - intros row Hrow. unfold time_table in Hrow.
    rewrite elem_of_dropDuplicates in Hrow.
    apply list_elem_of_fmap in Hrow as (d & -> & Hd).
    destruct (Hsource d Hd) as (r & t & ? & ? & ? & ->). by exists r, t.
  - intros row Hrow. unfold songplays_table in Hrow.
    apply list_elem_of_fmap in Hrow as ([d song] & -> & Hd).
    apply elem_of_left_join_left in Hd.
    destruct (Hsource d Hd) as (r & t & ? & ? & ? & ->). by exists r, t, song.
  - intros logs' Hlogs' Hty Hsame.
    set (fs2 := <[log_data_path input_data := LogJson logs']> fs).
    assert (Hin2 : fs2 !! log_data_path input_data = Some (LogJson logs'))
      by apply lookup_insert_eq.
    assert (Hrows2 : fs2 !! songs_path output_data = Some (SongsParquet rows)).
    { unfold fs2. rewrite lookup_insert_ne; [done|].
      intros Heq. rewrite Heq, Hrows in Hin. done. }
    pose proof (process_log_data_run c _ output_data _ _ Hin2 Hlogs') as Hrun2.
    cbv zeta in Hrun2. rewrite Hty, Hsame, Hmap, Hrows2, Hsongs in Hrun2.
    eexists. split; [exact Hrun2|].
    destruct (process_log_data_Ok _ _ _ _ _ _ Hin2 Hrun2)
      as (dataframe' & rows' & song_df' & _ & Hmap' & Hrows' & Hsongs' & Hu & Ht & Hp).
    rewrite Hty, Hsame, Hmap in Hmap'. injection Hmap' as <-.
    rewrite Hrows2 in Hrows'. injection Hrows' as <-.
    rewrite Hsongs in Hsongs'. injection Hsongs' as <-.
    rewrite Hsame in Hu. done.
Qed.

(** C3: the UDF divides [ts] by 1000 as a float and reads the quotient
    on the local clock, as a naive [datetime]; Spark is handed the second
    that [mktime] names for that reading, and derives the columns from
    it: the hour of the local second, the date of the local day, the ISO
    week counted by Thursdays from the week of 4 January, and the weekday
    from Sunday = 1. Within [2 ^ 33] seconds of the epoch the float
    carries [ts] to the microsecond. The six columns are determined by
    [ts] alone: they are the same for two records with the same [ts],
    and, where [mktime] names a second at which the clock shows the
    reading, the same whichever such second it names. *)
Theorem time_decomposition (ty : ts_type) (r : Log.t) (d : Timed.t) :
  with_time_columns c ty r = Ok d →
  ∃ ms f dt,
    Log.ts r = TsLong ms ∧
    seconds_of (ts_as ty (Log.ts r)) = Some f ∧
    fromtimestamp c f = Ok dt ∧
    Timed.start_time d = mktime c (wall dt) * 1000000 + microsecond dt ∧
    wall dt = (timeval f).1 + utcoffset c (timeval f).1 ∧
    microsecond dt = (timeval f).2 ∧
    0 ≤ microsecond dt < 1000000 ∧
    1 ≤ year_of_wall (wall dt) ≤ 9999 ∧
    (- 8589934592000 < ms < 8589934592000 →
     timeval f = (ms / 1000, ms mod 1000 * 1000)) ∧
    let seconds := local_seconds c (Timed.start_time d) in
    let day := local_day c (Timed.start_time d) in
    (mktime c (wall dt) + utcoffset c (mktime c (wall dt)) = wall dt →
     seconds = wall dt) ∧
    day = seconds / 86400 ∧
    Timed.hour d = seconds mod 86400 / 3600 ∧
    0 ≤ Timed.hour d ≤ 23 ∧
    days_from_civil (Timed.year d, Timed.month d, Timed.day d) = day ∧
    1 ≤ Timed.day d ≤ 31 ∧
    1 ≤ Timed.month d ≤ 12 ∧
    (∃ thursday first_thursday,
       day_name_of thursday = Thursday ∧
       day - 3 ≤ thursday ≤ day + 3 ∧
       let fourth := days_from_civil ((civil_from_days thursday).1.1, 1, 4) in
       day_name_of first_thursday = Thursday ∧
       fourth - 3 ≤ first_thursday ≤ fourth + 3 ∧
       thursday = first_thursday + 7 * (Timed.week d - 1)) ∧
    1 ≤ Timed.week d ≤ 53 ∧
    Timed.weekday d = sunday_first (day_name_of day) ∧
    1 ≤ Timed.weekday d ≤ 7 ∧
    (∀ r' d', Log.ts r' = Log.ts r → with_time_columns c ty r' = Ok d' →
              (Timed.hour d', Timed.day d', Timed.week d', Timed.month d',
               Timed.year d', Timed.weekday d')
              = (Timed.hour d, Timed.day d, Timed.week d, Timed.month d,
                 Timed.year d, Timed.weekday d)) ∧
    ∀ c' r' d',
      utcoffset c' = utcoffset c →
      mktime c (wall dt) + utcoffset c (mktime c (wall dt)) = wall dt →
      mktime c' (wall dt) + utcoffset c' (mktime c' (wall dt)) = wall dt →
      Log.ts r' = Log.ts r → with_time_columns c' ty r' = Ok d' →
      (Timed.hour d', Timed.day d', Timed.week d', Timed.month d',
       Timed.year d', Timed.weekday d')
      = (Timed.hour d, Timed.day d, Timed.week d, Timed.month d,
         Timed.year d, Timed.weekday d).
Proof.
  intros Hd. apply with_time_columns_Ok in Hd as (t & Ht & ->).
  pose proof Ht as (f & dt & Hf & Hdt & Hto)%get_timestamp_Ok.
  pose proof Hf as (ms & Hms & Hty)%seconds_of_ts_as.
  pose proof (fromtimestamp_Ok _ _ _ Hdt) as (Hwall & Hus & Hyear).
  pose proof (timeval_microsecond f) as Hrange. rewrite <- Hus in Hrange.
  exists ms, f, dt.
  split; [exact Hms|]. split; [exact Hf|]. split; [exact Hdt|].
  split; [exact Hto|]. split; [exact Hwall|]. split; [exact Hus|].
  split; [exact Hrange|]. split; [exact Hyear|].
  split.
  { intros Hnear. destruct Hty as [[_ ->]|[_ ->]];
      [by apply timeval_of_ms|by apply timeval_of_double_ms]. }
  cbv zeta. unfold timed.
  cbn [Timed.start_time Timed.hour Timed.day Timed.week Timed.month Timed.year
       Timed.weekday].
  split.
  { intros Hmk. rewrite Hto. by apply local_seconds_to_internal. }
  split; [reflexivity|].
  split; [reflexivity|].
  split; [apply hour_bounds|].
  split; [apply civil_date_of_local_day|].
  split; [apply dayofmonth_bounds|].
  split; [apply month_bounds|].
  split.
  { exists (thursday_of_week (local_day c t)).
    exists (thursday_of_week (days_from_civil
              ((civil_from_days (thursday_of_week (local_day c t))).1.1, 1, 4))).
    split; [apply thursday_of_week_name|].
    split; [apply thursday_of_week_spec|].
    cbv zeta.
    split; [apply thursday_of_week_name|].
    split; [apply thursday_of_week_spec|].
    apply weekofyear_from_fourth_of_january. }
  split; [apply weekofyear_bounds|].
  split; [apply dayofweek_sunday_first|].
  split; [apply dayofweek_bounds|].
  split.
  { intros r' d' Hsame Hd'. apply with_time_columns_Ok in Hd' as (t' & Ht' & ->).
    rewrite Hsame, Ht in Ht'. injection Ht' as <-. reflexivity. }
  intros c' r' d' Hzone Hmk Hmk' Hsame Hd'.
  apply with_time_columns_Ok in Hd' as (t' & Ht' & ->).
  rewrite Hsame in Ht'.
  apply get_timestamp_Ok in Ht' as (f' & dt' & Hf' & Hdt' & ->).
  rewrite Hf in Hf'. injection Hf' as <-.
  rewrite (fromtimestamp_zone c c' f Hzone), Hdt in Hdt'. injection Hdt' as <-.
  rewrite Hto.
  unfold timed.
  cbn [Timed.hour Timed.day Timed.week Timed.month Timed.year Timed.weekday].
  rewrite (time_columns_of_reading c' dt Hrange Hmk').
  by rewrite (time_columns_of_reading c dt Hrange Hmk).
Qed.

(** C10: the weekday column numbers the days from Sunday = 1 to
    Saturday = 7, in the time table as in the rows that feed the
    songplays table. *)
Theorem weekday_sunday_first (ty : ts_type) (r : Log.t) (d : Timed.t) :
  with_time_columns c ty r = Ok d →
  let today := day_name_of (local_day c (Timed.start_time d)) in
  Timed.weekday d = sunday_first today ∧
  TimeDim.weekday (select_time d) = sunday_first today ∧
  1 ≤ Timed.weekday d ≤ 7 ∧
  (Timed.weekday d = 1 ↔ today = Sunday) ∧
  (Timed.weekday d = 7 ↔ today = Saturday).
Proof.
  intros Hd. apply with_time_columns_Ok in Hd as (t & _ & ->). cbv zeta.
  unfold select_time, timed.
  cbn [Timed.start_time Timed.weekday TimeDim.weekday].
  rewrite dayofweek_sunday_first.
  split; [reflexivity|]. split; [reflexivity|].
  destruct (day_name_of (local_day c t)); cbn [sunday_first];
    (split; [lia|]); split; split; (lia || discriminate || reflexivity).
Qed.

(** C4, as the code has it: no timestamp is refused for its sign. A [ts]
    that is not a number for Python (null, a string, or an integer in a
    column that a string or an integer beyond a long has turned into
    strings or decimals) raises a [TypeError] in the UDF, which fails the
    job once the users table is written. A [ts] that is a number raises
    range errors only, and none within [2 ^ 33] seconds of the epoch,
    before it or after it, when the zone is within a day of UTC. A
    missing input, an input without records and an input of another
    shape fail both jobs alike with the engine's [AnalysisException]. *)
Theorem timestamp_failures :
  (∀ ty x, (∀ ms, x ≠ TsLong ms) →
           get_timestamp c (ts_as ty x) = Raise (PythonException TypeError)) ∧
  (∀ logs r s x, r ∈ logs → Log.ts r = TsString s →
     get_timestamp c (ts_as (ts_column_type logs) x)
     = Raise (PythonException TypeError)) ∧
  (∀ ms, get_timestamp c (ts_as DecimalType (TsLong ms))
         = Raise (PythonException TypeError)) ∧
  (∀ x e, get_timestamp c x = Raise e →
          e = PythonException TypeError ∧ seconds_of x = None ∨
          (∃ f, seconds_of x = Some f) ∧
          (e = PythonException ValueError ∨ e = PythonException OverflowError ∨
           e = PythonException OSError)) ∧
  ((∀ s, - 86400 ≤ utcoffset c s ≤ 86400) →
   ∀ ms, - 8589934592000 < ms < 8589934592000 →
     get_timestamp c (ts_as LongType (TsLong ms))
     = Ok (mktime c (ms / 1000 + utcoffset c (ms / 1000)) * 1000000
           + ms mod 1000 * 1000)) ∧
  (∀ input_data output_data fs logs r,
     fs !! log_data_path input_data = Some (LogJson logs) →
     r ∈ logs → Log.page r = Some "NextSong"%string →
     (∀ ms, Log.ts r ≠ TsLong ms) →
     ∃ e, (process_log_data c input_data output_data fs).2
          = Raise (PythonException e) ∧
          (process_log_data c input_data output_data fs).1 !! users_path output_data
          = Some (UsersParquet (users_table (where_ is_next_song logs)))) ∧
  (∀ input_data output_data fs,
     fs !! log_data_path input_data = None →
     (process_log_data c input_data output_data fs).2 = Raise path_missing) ∧
  (∀ input_data output_data fs,
     fs !! song_data_path input_data = None →
     (process_song_data input_data output_data fs).2 = Raise path_missing) ∧
  (∀ input_data output_data fs,
     fs !! log_data_path input_data = Some (LogJson []) →
     (process_log_data c input_data output_data fs).2 = Raise unresolved_column) ∧
  (∀ input_data output_data fs,
     fs !! song_data_path input_data = Some (SongJson []) →
     (process_song_data input_data output_data fs).2 = Raise unresolved_column) ∧
  (∀ input_data output_data fs rows,
     fs !! log_data_path input_data = Some (SongJson rows) →
     (process_log_data c input_data output_data fs).2 = Raise unresolved_column) ∧
  (∀ input_data output_data fs rows,
     fs !! song_data_path input_data = Some (LogJson rows) →
     (process_song_data input_data output_data fs).2 = Raise unresolved_column).
Proof.
  split_and!.
  - intros ty [|ms|s] Hx; [by destruct ty| |by destruct ty]. by destruct (Hx ms).
  - intros logs r s x Hr Hs. rewrite (ts_column_type_string logs r s Hr Hs).
    by destruct x.
  - done.
  - intros x e. unfold get_timestamp.
    destruct (seconds_of x) as [f|]; [|intros [= <-]; by left].
    destruct (fromtimestamp c f) as [dt|e'] eqn:Hf; [done|].
    intros [= <-]. right. split; [by exists f|].
    apply fromtimestamp_Raise in Hf. tauto.
  - intros Hzone ms Hms. cbn [ts_as]. unfold get_timestamp. cbn [seconds_of].
    pose proof (timeval_of_ms ms Hms) as Htv.
    rewrite (fromtimestamp_near_epoch c Hzone) by (rewrite Htv; simpl; zdiv).
    rewrite Htv. done.
  - intros input_data output_data fs logs r Hin Hr Hp Hts.
    assert (Hlogs : logs ≠ []) by (intros ->; by apply elem_of_nil in Hr).
    rewrite (process_log_data_users c _ _ _ _ Hin Hlogs).
    rewrite (process_log_data_run _ _ _ _ _ Hin Hlogs). cbv zeta.
    assert (Hfiltered : r ∈ where_ is_next_song logs).
    { apply elem_of_where_. by rewrite holds_is_next_song. }
    assert (Hraise : with_time_columns c (ts_column_type logs) r
                     = Raise (PythonException TypeError)).
    { unfold with_time_columns.
      destruct (Log.ts r) as [|ms|s]; [by destruct (ts_column_type logs)|
                                       by destruct (Hts ms)|
                                       by destruct (ts_column_type logs)]. }
    destruct (mapM_elem_Raise _ _ _ _ Hfiltered Hraise) as [e He].
    rewrite He. simpl.
    apply mapM_Raise in He as (r' & _ & He%with_time_columns_Raise).
    apply get_timestamp_Raise in He as [p ->]. by exists p.
  - intros input_data output_data fs Hin. by rewrite process_log_data_missing.
  - intros input_data output_data fs Hin. by rewrite process_song_data_missing.
  - intros input_data output_data fs Hin. by rewrite process_log_data_no_record.
  - intros input_data output_data fs Hin. by rewrite process_song_data_no_record.
  - intros input_data output_data fs rows Hin.
    unfold process_log_data, mbind, job_bind, read_log_json. by rewrite Hin.
  - intros input_data output_data fs rows Hin.
    unfold process_song_data, mbind, job_bind, read_song_json. by rewrite Hin.
Qed.

End log_times.

(** ** The claims on the sample data *)

(** A song record read twice gives one row of each table. *)
Lemma song_artist_tables_deduplicated_witness :
  songs_table [setanta_studio; other_song; setanta_studio]
    = [select_song other_song; select_song setanta_studio] ∧
  dropDuplicates (songs_table [setanta_studio; other_song; setanta_studio])
    = songs_table [setanta_studio; other_song; setanta_studio] ∧
  songs_table [setanta_studio; other_song]
    = [select_song setanta_studio; select_song other_song].
Proof.
  split; [vm_compute; reflexivity|].
  split.
  - apply (song_artist_tables_deduplicated
             [setanta_studio; other_song; setanta_studio]).
  - apply (song_artist_tables_deduplicated [setanta_studio; other_song]).
    vm_compute. repeat constructor; vm_compute; intros H; inversion H as [|? ? ? H']; inversion H'.
Defined.

(** Two song records with one id and two titles give two rows under that
    id, where C8 expects one. *)
Lemma same_id_two_rows :
  Song.song_id setanta_studio = Song.song_id setanta_live ∧
  Song.title setanta_studio ≠ Song.title setanta_live ∧
  length (filter (λ row, SongDim.song_id row = Song.song_id setanta_studio)
            (songs_at "out"
               (process_song_data "in/" "out"
                  (bucket [setanta_studio; setanta_live] [])).1)) = 2%nat.
Proof. split; [reflexivity|]. split; [discriminate|]. vm_compute. reflexivity. Qed.

(** The studio and the live record of one song id: two rows of the table. *)
Lemma same_id_different_title_kept_apart_witness :
  select_song setanta_studio ∈ songs_table [setanta_studio; setanta_live] ∧
  select_song setanta_live ∈ songs_table [setanta_studio; setanta_live] ∧
  select_song setanta_studio ≠ select_song setanta_live ∧
  SongDim.song_id (select_song setanta_studio)
    = SongDim.song_id (select_song setanta_live) ∧
  (2 ≤ length (filter (λ row, SongDim.song_id row = Song.song_id setanta_studio)
                      (songs_table [setanta_studio; setanta_live])))%nat ∧
  length (songs_table [setanta_studio; setanta_live]) = 2%nat.
Proof.
  apply (same_id_different_title_kept_apart
           [setanta_studio; setanta_live] setanta_studio setanta_live).
  - apply list_elem_of_here.
  - apply list_elem_of_further, list_elem_of_here.
  - reflexivity.
  - discriminate.
Defined.

(** User 8 on the free and then on the paid level: two rows of the table. *)
Lemma level_change_keeps_two_user_rows_witness :
  ∃ users,
    matched_run.1 !! users_path "out" = Some (UsersParquet users) ∧
    select_user elena ∈ users ∧ select_user elena_paid ∈ users ∧
    select_user elena ≠ select_user elena_paid ∧
    UserDim.user_id (select_user elena) = UserDim.user_id (select_user elena_paid) ∧
    NoDup users ∧
    (∀ r, r ∈ sample_logs → Log.page r = Some "NextSong"%string →
          length (filter (λ row, row = select_user r) users) = 1%nat).
Proof.
  apply (level_change_keeps_two_user_rows utc "in/" "out" matched_bucket
           sample_logs elena elena_paid).
  - vm_compute. reflexivity.
  - apply list_elem_of_here.
  - do 2 apply list_elem_of_further. apply list_elem_of_here.
  - reflexivity.
  - reflexivity.
  - reflexivity.
  - discriminate.
Defined.

(** One play record with two partners in the songs table gives two
    songplays rows, where C1 expects as many rows as play records. *)
Lemma songplays_count_counterexample :
  two_editions_run.2 = Ok tt ∧
  length (where_ is_next_song [elena; home_visit]) = 1%nat ∧
  length (songplays_at "out" two_editions_run.1) = 2%nat.
Proof. vm_compute. auto. Qed.

(** With one partner at most for each play, one row for each play. *)
Lemma songplays_count_witness :
  length (songplays_at "out" matched_run.1) =
    sum_list_with
      (λ r, 1 `max` length (partners song_matches (songs_at "out" matched_bucket) r))%nat
      (where_ is_next_song sample_logs) ∧
  (length (where_ is_next_song sample_logs)
   ≤ length (songplays_at "out" matched_run.1))%nat ∧
  (Forall (λ r, (length (partners song_matches (songs_at "out" matched_bucket) r)
                 ≤ 1)%nat)
          (where_ is_next_song sample_logs) →
   length (songplays_at "out" matched_run.1)
   = length (where_ is_next_song sample_logs)).
Proof.
  apply (songplays_count utc "in/" "out" matched_bucket matched_run.1 sample_logs
           (songs_at "out" matched_bucket)).
  - vm_compute. reflexivity.
  - vm_compute. reflexivity.
  - vm_compute. reflexivity.
  - apply (run_Ok matched_run). vm_compute. reflexivity.
  - vm_compute. reflexivity.
Defined.

(** The scenario of C2: the play of "Setanta matins" at 1541121934796 ms
    with no partner in the songs table gives the row with null keys that
    starts at 1541121934.796 s, on 2 November 2018. *)
Lemma unmatched_play_has_null_keys_witness :
  SongPlay.mk 1541121934796000 (Some "8") (Some "free") None None (Some 139)
              (Some "Phoenix-Mesa-Scottsdale, AZ") (Some "Mozilla/5.0") 2018 11
  ∈ songplays_at "out" unmatched_run.1.
Proof.
  destruct (unmatched_play_has_null_keys utc "in/" "out" unmatched_bucket
              unmatched_run.1 sample_logs (songs_at "out" unmatched_bucket)
              (songs_at "out" unmatched_bucket)
              (songplays_at "out" unmatched_run.1) elena)
    as (ms & t & _ & Ht & _ & Hin & _).
  - vm_compute. reflexivity.
  - vm_compute. reflexivity.
  - vm_compute. reflexivity.
  - apply (run_Ok unmatched_run). vm_compute. reflexivity.
  - vm_compute. reflexivity.
  - apply list_elem_of_here.
  - reflexivity.
  - vm_compute. repeat constructor.
  - vm_compute in Ht. injection Ht as <-. vm_compute in Hin. vm_compute. exact Hin.
Defined.

(** The same play with a partner carries the partner's keys. *)
Lemma matched_play_carries_song_keys_witness :
  SongPlay.mk 1541121934796000 (Some "8") (Some "free")
              (Some "SOZCTXZ12AB0182364") (Some "AR5KOSW1187FB35FF4") (Some 139)
              (Some "Phoenix-Mesa-Scottsdale, AZ") (Some "Mozilla/5.0") 2018 11
  ∈ songplays_at "out" matched_run.1.
Proof.
  destruct (matched_play_carries_song_keys utc "in/" "out" matched_bucket
              matched_run.1 sample_logs (songs_at "out" matched_bucket)
              (songs_at "out" matched_bucket)
              (songplays_at "out" matched_run.1) elena (select_song setanta_studio)
              "Setanta matins" "Elena" seconds_269_58338
              "SOZCTXZ12AB0182364" "AR5KOSW1187FB35FF4")
    as (ms & t & _ & Ht & Hin & _).
  - vm_compute. reflexivity.
  - vm_compute. reflexivity.
  - vm_compute. reflexivity.
  - apply (run_Ok matched_run). vm_compute. reflexivity.
  - vm_compute. reflexivity.
  - apply list_elem_of_here.
  - reflexivity.
  - vm_compute. repeat constructor.
  - reflexivity.
  - reflexivity.
  - reflexivity.
  - reflexivity.
  - reflexivity.
  - reflexivity.
  - reflexivity.
  - reflexivity.
  - vm_compute in Ht. injection Ht as <-. vm_compute in Hin. vm_compute. exact Hin.
Defined.

(** Dropping the page view from the log changes none of the three tables:
    its [ts] is null, and the column stays a column of longs. *)
Lemma only_next_song_records_used_witness :
  ∃ fs'',
    process_log_data utc "in/" "out"
      (<[log_data_path "in/" := LogJson [elena; elena_paid]]> matched_bucket)
      = (fs'', Ok tt) ∧
    fs'' !! users_path "out" = Some (UsersParquet (users_at "out" matched_run.1)) ∧
    fs'' !! time_path "out" = Some (TimeParquet (time_at "out" matched_run.1)) ∧
    fs'' !! songplays_path "out"
      = Some (SongplaysParquet (songplays_at "out" matched_run.1)).
Proof.
  destruct (only_next_song_records_used utc "in/" "out" matched_bucket
              matched_run.1 sample_logs (users_at "out" matched_run.1)
              (time_at "out" matched_run.1) (songplays_at "out" matched_run.1))
    as (_ & _ & _ & Hsame).
  - vm_compute. reflexivity.
  - apply (run_Ok matched_run). vm_compute. reflexivity.
  - vm_compute. reflexivity.
  - vm_compute. reflexivity.
  - vm_compute. reflexivity.
  - apply Hsame; [discriminate|vm_compute; reflexivity|vm_compute; reflexivity].
Defined.

(** The two conditions on the other log are needed: a page view with a
    textual [ts] turns the column into strings and fails a run that ends
    normally without it, and a log without a record fails where a log of
    page views gives three empty tables. *)
Lemma page_view_changes_the_run :
  where_ is_next_song [elena; text_visit] = where_ is_next_song [elena] ∧
  (process_log_data utc "in/" "out" (bucket_with_songs [setanta_studio] [elena])).2
    = Ok tt ∧
  (process_log_data utc "in/" "out"
     (bucket_with_songs [setanta_studio] [elena; text_visit])).2
    = Raise (PythonException TypeError) ∧
  where_ is_next_song [home_visit; home_visit] = where_ is_next_song [] ∧
  (process_log_data utc "in/" "out" page_views_bucket).2 = Ok tt ∧
  (process_log_data utc "in/" "out" (bucket_with_songs [setanta_studio] [])).2
    = Raise unresolved_column.
Proof. vm_compute. auto 10. Qed.

(** The play of Saturday 3 November 2018, 01:25:34 UTC, in ISO week 44. *)
Lemma time_decomposition_witness :
  with_time_columns utc LongType elena_paid
    = Ok (Timed.mk elena_paid 1541208334796000 1 3 44 11 2018 7) ∧
  ∀ r' d', Log.ts r' = Log.ts elena_paid →
           with_time_columns utc LongType r' = Ok d' →
           (Timed.hour d', Timed.day d', Timed.week d', Timed.month d',
            Timed.year d', Timed.weekday d') = (1, 3, 44, 11, 2018, 7).
Proof.
  assert (Hd : with_time_columns utc LongType elena_paid
               = Ok (Timed.mk elena_paid 1541208334796000 1 3 44 11 2018 7))
    by (vm_compute; reflexivity).
  split; [exact Hd|].
  destruct (time_decomposition utc LongType elena_paid _ Hd)
    as (ms & f & dt & _ & _ & _ & _ & _ & _ & _ & _ & _ & Hrest).
  cbv zeta in Hrest.
  destruct Hrest as (_ & _ & _ & _ & _ & _ & _ & _ & _ & _ & _ & Hpure & _).
  exact Hpure.
Defined.

(** The play of Sunday 4 November 2018 has weekday 1. *)
Lemma weekday_sunday_first_witness :
  with_time_columns utc LongType sunday_play
    = Ok (Timed.mk sunday_play 1541294734796000 1 4 44 11 2018 1) ∧
  day_name_of (local_day utc 1541294734796000) = Sunday.
Proof.
  assert (Hd : with_time_columns utc LongType sunday_play
               = Ok (Timed.mk sunday_play 1541294734796000 1 4 44 11 2018 1))
    by (vm_compute; reflexivity).
  split; [exact Hd|].
  destruct (weekday_sunday_first utc LongType sunday_play _ Hd)
    as (_ & _ & _ & Hsun & _).
  apply Hsun. reflexivity.
Defined.

(** A play stamped one second before the epoch is not refused, where C4
    expects the job to fail: the run ends normally and the play is in the
    songplays table, on 31 December 1969. *)
Lemma negative_ts_accepted :
  Log.ts before_epoch = TsLong (-1000) ∧
  before_epoch_run.2 = Ok tt ∧
  songplays_at "out" before_epoch_run.1 =
    [SongPlay.mk (-1000000) (Some "8") (Some "free") (Some "SOZCTXZ12AB0182364")
                 (Some "AR5KOSW1187FB35FF4") (Some 139)
                 (Some "Phoenix-Mesa-Scottsdale, AZ") (Some "Mozilla/5.0")
                 1969 12].
Proof. vm_compute. auto. Qed.

(** A play before the epoch is decoded; a textual [ts], a missing input
    and an input without records fail the job. *)
Lemma timestamp_failures_witness :
  get_timestamp utc (ts_as LongType (TsLong (-1000))) = Ok (-1000000) ∧
  (∃ e, (process_log_data utc "in/" "out" text_stamp_bucket).2
        = Raise (PythonException e) ∧
        (process_log_data utc "in/" "out" text_stamp_bucket).1 !! users_path "out"
        = Some (UsersParquet
                  (users_table (where_ is_next_song [elena; text_stamp])))) ∧
  (process_log_data utc "in/" "out" ∅).2 = Raise path_missing ∧
  (process_song_data "in/" "out" ∅).2 = Raise path_missing ∧
  (process_log_data utc "in/" "out" (bucket [setanta_studio] [])).2
    = Raise unresolved_column.
Proof.
  destruct (timestamp_failures utc)
    as (_ & _ & _ & _ & Hnum & Htext & Hlog & Hsong & Hnone & _).
  split.
  { rewrite Hnum; [vm_compute; reflexivity|intros s; simpl; lia|lia]. }
  split.
  { apply (Htext "in/" "out" text_stamp_bucket [elena; text_stamp] text_stamp)%string.
    - vm_compute. reflexivity.
    - apply list_elem_of_further, list_elem_of_here.
    - reflexivity.
    - intros ms. discriminate. }
  split; [apply Hlog; reflexivity|].
  split; [apply Hsong; reflexivity|].
  apply Hnone. vm_compute. reflexivity.
Defined.

(** * Further properties of the jobs *)

(** ** Paths of inputs and of outputs *)

Lemma string_length_app (s t : string) :
  String.length (s +:+ t) = (String.length s + String.length t)%nat.
Proof. induction s as [|c s IH]; simpl; [done|]. by rewrite IH. Qed.

(** The last character of a path is the last character of its suffix. *)
Lemma last_of_app (s t : string) (n : nat) :
  String.length t = S n →
  String.get (String.length (s +:+ t) - 1) (s +:+ t) = String.get n t.
Proof.
  intros Hlen. rewrite string_length_app, Hlen.
  replace (String.length s + S n - 1)%nat with (n + String.length s)%nat by lia.
  symmetry. apply String.append_correct2.
Qed.

(** A path that ends in [json] is no path that ends in [parquet]. *)
Lemma json_ne_parquet (input_data output_data t1 t2 : string) (n1 n2 : nat) :
  String.length t1 = S n1 → String.get n1 t1 = Some "n"%char →
  String.length t2 = S n2 → String.get n2 t2 = Some "t"%char →
  input_data +:+ t1 ≠ output_data +:+ t2.
Proof.
  intros Hl1 Hg1 Hl2 Hg2 Heq.
  pose proof (last_of_app input_data t1 n1 Hl1) as H1.
  pose proof (last_of_app output_data t2 n2 Hl2) as H2.
  rewrite Heq, H2, Hg2, Hg1 in H1. discriminate.
Qed.

Ltac input_ne_output :=
  first [ eapply json_ne_parquet; reflexivity
        | apply not_eq_sym; eapply json_ne_parquet; reflexivity ].

Ltac output_ne_output := apply output_path_ne; intros [=].

Ltac paths_ne := first [ input_ne_output | output_ne_output ].

(** Writing the same tables again changes nothing. *)
Lemma insert_twice_2 (fs : storage) k1 k2 v1 v2 :
  <[k1 := v1]> (<[k2 := v2]> (<[k1 := v1]> (<[k2 := v2]> fs)))
  = <[k1 := v1]> (<[k2 := v2]> fs).
Proof.
  apply map_eq. intros i. rewrite !lookup_insert. by repeat case_decide.
Qed.

Lemma insert_twice_3 (fs : storage) k1 k2 k3 v1 v2 v3 :
  <[k1 := v1]> (<[k2 := v2]> (<[k3 := v3]>
    (<[k1 := v1]> (<[k2 := v2]> (<[k3 := v3]> fs)))))
  = <[k1 := v1]> (<[k2 := v2]> (<[k3 := v3]> fs)).
Proof.
  apply map_eq. intros i. rewrite !lookup_insert. by repeat case_decide.
Qed.


(** ** [process_song_data] as a whole *)

(** What [process_song_data] leaves alone. *)
Lemma process_song_data_frame input_data output_data (fs : storage) path :
  path ≠ songs_path output_data → path ≠ artists_path output_data →
  (process_song_data input_data output_data fs).1 !! path = fs !! path.
Proof.
  intros Hs Ha.
  unfold process_song_data, mbind, job_bind, read_song_json, write_parquet.
  destruct (fs !! song_data_path input_data) as [[[|r rows]| | | | | |]|];
    simpl; try done.
  by rewrite !lookup_insert_ne.
Qed.

Lemma process_song_data_twice input_data output_data (fs : storage) :
  process_song_data input_data output_data
    (process_song_data input_data output_data fs).1
  = process_song_data input_data output_data fs.
Proof.
  destruct (fs !! song_data_path input_data) as [d|] eqn:Hin.
  - destruct d as [[|r rows]| | | | | |];
      try (unfold process_song_data, mbind, job_bind, read_song_json;
           rewrite Hin; simpl; by rewrite Hin).
    rewrite (process_song_data_run _ _ _ _ Hin) by done. simpl.
    rewrite (process_song_data_run _ output_data _ (r :: rows)).
    + by rewrite insert_twice_2.
    + rewrite !lookup_insert_ne by paths_ne. done.
    + done.
  - rewrite (process_song_data_missing _ _ _ Hin). simpl.
    by apply process_song_data_missing.
Qed.

(** X1: [process_song_data] writes the songs and artists tables and
    nothing else, whatever its outcome: its own input, the log input and
    the three tables of [process_log_data] are as they were. *)
Theorem process_song_data_writes_two_paths input_data output_data (fs : storage) :
  (∀ path, path ≠ songs_path output_data → path ≠ artists_path output_data →
           (process_song_data input_data output_data fs).1 !! path = fs !! path) ∧
  (process_song_data input_data output_data fs).1 !! song_data_path input_data
    = fs !! song_data_path input_data ∧
  (process_song_data input_data output_data fs).1 !! log_data_path input_data
    = fs !! log_data_path input_data ∧
  (process_song_data input_data output_data fs).1 !! users_path output_data
    = fs !! users_path output_data ∧
  (process_song_data input_data output_data fs).1 !! time_path output_data
    = fs !! time_path output_data ∧
  (process_song_data input_data output_data fs).1 !! songplays_path output_data
    = fs !! songplays_path output_data.
Proof.
  split; [intros path; apply process_song_data_frame|].
  split_and!; apply process_song_data_frame; paths_ne.
Qed.


(** ** [process_log_data] as a whole *)

Section log_job.
Variable c : cluster.
Implicit Types (fs : storage) (input_data output_data : string).

(** The UDF decodes every row of a frame when it decodes each of them. *)
Lemma mapM_with_time_columns_Ok ty (dataframe : list Log.t) :
  Forall (λ r, ∃ t, get_timestamp c (ts_as ty (Log.ts r)) = Ok t) dataframe ↔
  ∃ timed_rows, mapM (with_time_columns c ty) dataframe = Ok timed_rows.
Proof.
  split.
  - induction 1 as [|r l [t Ht] _ IH]; [by exists []|].
    destruct IH as [k Hk].
    exists (timed c r t :: k). simpl.
    rewrite (proj2 (with_time_columns_Ok c ty r (timed c r t))) by eauto.
    simpl. by rewrite Hk.
  - intros [k Hk%mapM_Ok]. induction Hk as [|r d l k Hr _ IH]; constructor; [|done].
    apply with_time_columns_Ok in Hr as (t & Ht & _). eauto.
Qed.

(** What [process_log_data] leaves alone. *)
Lemma process_log_data_frame input_data output_data fs path :
  path ≠ users_path output_data → path ≠ time_path output_data →
  path ≠ songplays_path output_data →
  (process_log_data c input_data output_data fs).1 !! path = fs !! path.
Proof.
  intros Hu Ht Hp.
  destruct (fs !! log_data_path input_data) as [d|] eqn:Hin.
  - destruct d as [|[|r logs]| | | | |];
      try (unfold process_log_data, mbind, job_bind, read_log_json;
           by rewrite Hin).
    rewrite (process_log_data_run _ _ _ _ _ Hin) by done. cbv zeta.
    destruct (mapM _ _) as [dataframe|e]; simpl.
    + destruct (fs !! songs_path output_data) as [[]|]; simpl;
        try destruct (partition_discovery c rows); simpl;
        by rewrite !lookup_insert_ne.
    + destruct (clears_first c); simpl;
        by rewrite ?lookup_delete_ne, lookup_insert_ne.
  - by rewrite process_log_data_missing.
Qed.

Lemma process_log_data_twice input_data output_data fs :
  process_log_data c input_data output_data
    (process_log_data c input_data output_data fs).1
  = process_log_data c input_data output_data fs.
Proof.
  destruct (fs !! log_data_path input_data) as [d|] eqn:Hin.
  - destruct d as [|[|r logs]| | | | |];
      try (unfold process_log_data, mbind, job_bind, read_log_json;
           rewrite Hin; simpl; by rewrite Hin).
    pose proof (process_log_data_frame input_data output_data fs
                  (log_data_path input_data) ltac:(paths_ne) ltac:(paths_ne)
                  ltac:(paths_ne)) as Hin'.
    pose proof (process_log_data_frame input_data output_data fs
                  (songs_path output_data) ltac:(paths_ne) ltac:(paths_ne)
                  ltac:(paths_ne)) as Hsongs'.
    rewrite Hin in Hin'.
    rewrite (process_log_data_run _ _ output_data _ _ Hin') by done.
    rewrite Hsongs'. clear Hin' Hsongs'.
    rewrite (process_log_data_run _ _ _ _ _ Hin) by done. cbv zeta.
    destruct (mapM _ _) as [dataframe|e] eqn:Hmap; simpl.
    + destruct (fs !! songs_path output_data) as [[]|] eqn:Hsongs; simpl;
        try destruct (partition_discovery c rows); simpl;
        f_equal; apply map_eq; intros i; rewrite !lookup_insert;
        by repeat case_decide.
    + f_equal. destruct (clears_first c); apply map_eq; intros i.
      * rewrite !lookup_delete, !lookup_insert, !lookup_delete, !lookup_insert.
        by repeat case_decide.
      * rewrite !lookup_insert. by repeat case_decide.
  - rewrite (process_log_data_missing _ _ _ _ Hin). simpl.
    by apply process_log_data_missing.
Qed.

(** Once the song job has ended normally, it ends normally again on what
    the log job left, and writes nothing new. *)
Lemma process_song_data_after_log input_data output_data fs fs1 :
  process_song_data input_data output_data fs = (fs1, Ok tt) →
  process_song_data input_data output_data
    (process_log_data c input_data output_data fs1).1
  = ((process_log_data c input_data output_data fs1).1, Ok tt).
Proof.
  intros Hsong.
  destruct (fs !! song_data_path input_data) as [d|] eqn:Hin.
  2:{ by rewrite (process_song_data_missing _ _ _ Hin) in Hsong. }
  destruct d as [[|r rows]| | | | | |];
    try (revert Hsong;
         unfold process_song_data, mbind, job_bind, read_song_json;
         by rewrite Hin).
  rewrite (process_song_data_run _ _ _ _ Hin) in Hsong by done.
  injection Hsong as <-.
  set (fs1 := <[artists_path output_data := _]> _).
  set (fs2 := (process_log_data c input_data output_data fs1).1).
  assert (Hs : fs2 !! songs_path output_data
               = Some (SongsParquet (songs_table (r :: rows)))).
  { unfold fs2. rewrite process_log_data_frame by paths_ne.
    unfold fs1. rewrite lookup_insert_ne by paths_ne. apply lookup_insert_eq. }
  assert (Ha : fs2 !! artists_path output_data
               = Some (ArtistsParquet (artists_table (r :: rows)))).
  { unfold fs2. rewrite process_log_data_frame by paths_ne.
    unfold fs1. apply lookup_insert_eq. }
  rewrite (process_song_data_run _ output_data fs2 (r :: rows)).
  - f_equal. rewrite (insert_id fs2 _ _ Hs). by apply insert_id.
  - unfold fs2. rewrite process_log_data_frame by paths_ne.
    unfold fs1. by rewrite !lookup_insert_ne by paths_ne.
  - done.
Qed.

Lemma main_twice input_data output_data fs :
  main c input_data output_data (main c input_data output_data fs).1
  = main c input_data output_data fs.
Proof.
  unfold main, mbind, job_bind.
  destruct (process_song_data input_data output_data fs) as [fs1 r1] eqn:Hsong.
  destruct r1 as [[]|e].
  - rewrite (process_song_data_after_log _ _ _ _ Hsong).
    apply process_log_data_twice.
  - cbn [fst].
    assert (fs1 = (process_song_data input_data output_data fs).1) as ->
      by (by rewrite Hsong).
    by rewrite process_song_data_twice, Hsong.
Qed.

(** X2: [process_log_data] writes the users, time and songplays tables
    and nothing else, whatever its outcome: both inputs and the songs and
    artists tables are as they were. *)
Theorem process_log_data_writes_three_paths input_data output_data fs :
  (∀ path, path ≠ users_path output_data → path ≠ time_path output_data →
           path ≠ songplays_path output_data →
           (process_log_data c input_data output_data fs).1 !! path
           = fs !! path) ∧
  (process_log_data c input_data output_data fs).1 !! log_data_path input_data
    = fs !! log_data_path input_data ∧
  (process_log_data c input_data output_data fs).1 !! song_data_path input_data
    = fs !! song_data_path input_data ∧
  (process_log_data c input_data output_data fs).1 !! songs_path output_data
    = fs !! songs_path output_data ∧
  (process_log_data c input_data output_data fs).1 !! artists_path output_data
    = fs !! artists_path output_data.
Proof.
  split; [intros path; apply process_log_data_frame|].
  split_and!; apply process_log_data_frame; paths_ne.
Qed.

(** X3: the jobs replace their tables, they never add to them: a second
    run of [process_song_data], of [process_log_data] or of [main] on the
    storage the first run left ends as the first did, normally or not,
    and leaves the storage as it found it. *)
Theorem reruns_change_nothing input_data output_data fs :
  process_song_data input_data output_data
    (process_song_data input_data output_data fs).1
  = process_song_data input_data output_data fs ∧
  process_log_data c input_data output_data
    (process_log_data c input_data output_data fs).1
  = process_log_data c input_data output_data fs ∧
  main c input_data output_data
    (main c input_data output_data fs).1
  = main c input_data output_data fs.
Proof.
  split; [apply process_song_data_twice|].
  split; [apply process_log_data_twice|apply main_twice].
Qed.

(** X4: when the UDF fails on a play record, [process_log_data] raises
    the Python error with the users table already written and the
    songplays table untouched. The write of the time table is where the
    UDF runs: on a cluster that clears the target first the time table of
    an earlier run is lost, on another it is as it was. *)
Theorem udf_failure_after_users_table input_data output_data fs logs r e0 :
  fs !! log_data_path input_data = Some (LogJson logs) →
  r ∈ logs →
  Log.page r = Some "NextSong"%string →
  get_timestamp c (ts_as (ts_column_type logs) (Log.ts r)) = Raise e0 →
  ∃ e,
    (process_log_data c input_data output_data fs).2 = Raise (PythonException e) ∧
    (process_log_data c input_data output_data fs).1 !! users_path output_data
      = Some (UsersParquet (users_table (where_ is_next_song logs))) ∧
    (process_log_data c input_data output_data fs).1 !! time_path output_data
      = (if clears_first c then None else fs !! time_path output_data) ∧
    (process_log_data c input_data output_data fs).1
      !! songplays_path output_data
      = fs !! songplays_path output_data.
Proof.
  intros Hin Hr Hpage Hbad.
  assert (Hlogs : logs ≠ []) by (intros ->; by apply elem_of_nil in Hr).
  assert (Hfiltered : r ∈ where_ is_next_song logs).
  { apply elem_of_where_. by rewrite holds_is_next_song. }
  assert (Hraise : with_time_columns c (ts_column_type logs) r = Raise e0).
  { unfold with_time_columns. by rewrite Hbad. }
  destruct (mapM_elem_Raise _ _ _ _ Hfiltered Hraise) as [e He].
  rewrite (process_log_data_users c _ _ _ _ Hin Hlogs).
  rewrite (process_log_data_run _ _ _ _ _ Hin Hlogs). cbv zeta.
  rewrite He.
  apply mapM_Raise in He as (r' & _ & He%with_time_columns_Raise).
  apply get_timestamp_Raise in He as [p ->].
  exists p. cbn [fst snd]. split; [done|]. split; [done|].
  destruct (clears_first c).
  - split; [apply lookup_delete_eq|].
    rewrite lookup_delete_ne by paths_ne. by rewrite lookup_insert_ne by paths_ne.
  - split; by rewrite lookup_insert_ne by paths_ne.
Qed.


(** X6: a log that has records but not a single ["NextSong"] record
    gives three empty tables and a normal end, whatever the [ts] of its
    records: the UDF is never called. *)
Theorem no_play_records input_data output_data fs logs rows song_df :
  fs !! log_data_path input_data = Some (LogJson logs) →
  logs ≠ [] →
  fs !! songs_path output_data = Some (SongsParquet rows) →
  partition_discovery c rows = Ok song_df →
  Forall (λ r, Log.page r ≠ Some "NextSong"%string) logs →
  process_log_data c input_data output_data fs
  = (<[songplays_path output_data := SongplaysParquet []]>
       (<[time_path output_data := TimeParquet []]>
          (<[users_path output_data := UsersParquet []]> fs)),
     Ok tt).
Proof.
  intros Hin Hlogs Hrows Hsongs Hnone.
  assert (Hempty : where_ is_next_song logs = []).
  { clear Hin Hlogs. unfold where_. induction Hnone as [|r l Hr _ IH]; [done|].
    rewrite filter_cons_False; [exact IH|].
    by rewrite holds_is_next_song. }
  rewrite (process_log_data_run _ _ _ _ _ Hin Hlogs). cbv zeta.
  rewrite Hempty, Hrows, Hsongs. done.
Qed.



(** X8: [main] stops at the first job that fails. When the song input is
    not found, or is found without a record, it raises at once, with the
    storage untouched and the log never read; when the song input has
    records and the log input is not found, or is found without a record,
    it raises with the songs and artists tables already written. *)
Theorem main_stops_at_first_failure input_data output_data fs :
  (fs !! song_data_path input_data = None →
   main c input_data output_data fs = (fs, Raise path_missing)) ∧
  (fs !! song_data_path input_data = Some (SongJson []) →
   main c input_data output_data fs = (fs, Raise unresolved_column)) ∧
  (∀ songs,
     fs !! song_data_path input_data = Some (SongJson songs) →
     songs ≠ [] →
     let written :=
       <[artists_path output_data := ArtistsParquet (artists_table songs)]>
         (<[songs_path output_data := SongsParquet (songs_table songs)]> fs) in
     (fs !! log_data_path input_data = None →
      main c input_data output_data fs = (written, Raise path_missing)) ∧
     (fs !! log_data_path input_data = Some (LogJson []) →
      main c input_data output_data fs = (written, Raise unresolved_column))).
Proof.
  split_and!.
  - intros Hsong. unfold main, mbind, job_bind.
    by rewrite (process_song_data_missing _ _ _ Hsong).
  - intros Hsong. unfold main, mbind, job_bind.
    by rewrite (process_song_data_no_record _ _ _ Hsong).
  - intros songs Hsong Hsongs. cbv zeta. split; intros Hlog;
      unfold main, mbind at 1, job_bind at 1;
      rewrite (process_song_data_run _ _ _ _ Hsong Hsongs).
    + apply process_log_data_missing.
      by rewrite !lookup_insert_ne by paths_ne.
    + apply process_log_data_no_record.
      by rewrite !lookup_insert_ne by paths_ne.
Qed.

End log_job.

(** ** How the tables fit together *)



Section fitting.
Variable c : cluster.
Implicit Types (fs : storage) (input_data output_data : string).




(** X11: the keys of a songplays row are never made up: a row with a
    [song_id] carries the [song_id] and [artist_id] of one row of the
    songs table as it was read, and that row has the title, artist name
    and duration of a play record. *)
Theorem songplays_keys_from_songs_table
    input_data output_data fs fs' logs rows song_df plays :
  fs !! log_data_path input_data = Some (LogJson logs) →
  fs !! songs_path output_data = Some (SongsParquet rows) →
  partition_discovery c rows = Ok song_df →
  process_log_data c input_data output_data fs = (fs', Ok tt) →
  fs' !! songplays_path output_data = Some (SongplaysParquet plays) →
  ∀ play, play ∈ plays →
    (SongPlay.song_id play = None ∧ SongPlay.artist_id play = None) ∨
    ∃ song r, song ∈ song_df ∧ r ∈ logs ∧
              Log.page r = Some "NextSong"%string ∧
              holds (song_matches r song) = true ∧
              SongPlay.song_id play = SongDim.song_id song ∧
              SongPlay.artist_id play = SongDim.artist_id song.
Proof.
  intros Hin Hrows Hsongs Hrun Hplays play Hplay.
  destruct (process_log_data_Ok _ _ _ _ _ _ Hin Hrun)
    as (dataframe & rows' & song_df' & _ & Hmap & Hrows' & Hsongs' & _ & _ & Hplays').
  rewrite Hrows in Hrows'. injection Hrows' as <-.
  rewrite Hsongs in Hsongs'. injection Hsongs' as <-.
  rewrite Hplays in Hplays'. injection Hplays' as ->.
  unfold songplays_table in Hplay.
  apply list_elem_of_fmap in Hplay as ([d osong] & -> & Hd).
  pose proof (elem_of_left_join_left _ _ _ _ _ Hd) as Hleft.
  destruct (mapM_Ok_elem _ _ _ _ Hmap Hleft) as (r & Hr & Hrd).
  apply elem_of_where_ in Hr as [Hp%holds_is_next_song Hr].
  apply with_time_columns_Ok in Hrd as (t & _ & ->).
  destruct osong as [song|]; [right|by left].
  exists song, r.
  unfold left_join in Hd. apply list_elem_of_bind in Hd as (d' & Hin' & _).
  unfold join_row in Hin'.
  destruct (partners _ song_df d') as [|b l] eqn:Hpart.
  { apply list_elem_of_singleton in Hin'. done. }
  apply list_elem_of_fmap in Hin' as (b' & [= <- ->] & Hb').
  rewrite <- Hpart in Hb'. unfold partners in Hb'.
  apply list_elem_of_filter in Hb' as [Hmatch Hb']. done.
Qed.

(** X12: a null never matches in the join. A play record without song,
    artist or length gets null keys from any songs table, and a songs row
    without title, artist name or duration is no partner of any record,
    not even when the nulls are in the same column on both sides. *)
Theorem null_never_matches (r : Log.t) (song : SongDim.t) :
  (Log.song r = None ∨ Log.artist r = None ∨ Log.length r = None →
   ∀ t song_df,
     songplays_table [timed c r t] song_df
     = [songplay_of c r t None None]) ∧
  (SongDim.title song = None ∨ SongDim.artist_name song = None ∨
   SongDim.duration song = None →
   ∀ r', holds (song_matches r' song) = false).
Proof.
  split.
  - intros Hnull t song_df.
    assert (Hno : ∀ s, holds (song_matches r s) = false).
    { intros s. destruct (holds (song_matches r s)) eqn:E; [|done].
      apply holds_song_matches in E
        as (? & ? & ? & Hs & _ & Ha & _ & Hl & _).
      destruct Hnull as [H|[H|H]]; congruence. }
    unfold songplays_table, left_join. rewrite bind_singleton.
    rewrite join_row_unmatched; [done|].
    unfold partners. simpl.
    induction song_df as [|s l IH]; [done|].
    rewrite filter_cons_False; [done|]. by rewrite Hno.
  - intros Hnull r'. destruct (holds (song_matches r' song)) eqn:E; [|done].
    apply holds_song_matches in E as (? & ? & ? & _ & Hs & _ & Ha & _ & Hl).
    destruct Hnull as [H|[H|H]]; congruence.
Qed.

End fitting.

(** ** The order of the input rows *)






Section row_order.
Variable c : cluster.


End row_order.

(** ** More facts about the calendar *)

(** [civil_from_days] names real dates only: the day is within its month. *)
Lemma civil_from_days_valid z :
  (civil_from_days z).2
  ≤ days_in_month (civil_from_days z).1.1 (civil_from_days z).1.2.
Proof.
  unfold civil_from_days. cbv zeta. cbn [fst snd].
  destruct (era_split z) as (era & doe & Hz & Hdoe & <-).
  replace (z + 719468 - era * 146097) with doe by lia. clear Hz.
  set (yoe := (doe - doe / 1460 + doe / 36524 - doe / 146096) / 365).
  assert (Hyoe : 0 ≤ yoe ≤ 399) by (subst yoe; zdiv).
  set (doy := doe - (365 * yoe + yoe / 4 - yoe / 100)).
  assert (Hdoy : 0 ≤ doy ≤ 365) by (subst doy yoe; zdiv).
  assert (Hleap : doy = 365 → is_leap (yoe + era * 400 + 1) = true).
  { intros Hd. unfold is_leap.
    assert ((yoe + 1) mod 4 = 0 ∧ ((yoe + 1) mod 100 ≠ 0 ∨ (yoe + 1) mod 400 = 0))
      as [H4 H100] by (subst doy yoe; zdiv).
    replace ((yoe + era * 400 + 1) mod 4) with ((yoe + 1) mod 4) by zdiv.
    replace ((yoe + era * 400 + 1) mod 100) with ((yoe + 1) mod 100) by zdiv.
    replace ((yoe + era * 400 + 1) mod 400) with ((yoe + 1) mod 400) by zdiv.
    rewrite H4. simpl. destruct H100 as [H|H].
    - apply Z.eqb_neq in H. by rewrite H.
    - rewrite H. simpl. apply orb_true_r. }
  clearbody doy. clear Hdoe. clearbody yoe.
  set (mp := (5 * doy + 2) / 153).
  assert (Hmp : 0 ≤ mp ≤ 11) by (subst mp; zdiv).
  assert (mp = 0 ∨ mp = 1 ∨ mp = 2 ∨ mp = 3 ∨ mp = 4 ∨ mp = 5 ∨ mp = 6 ∨
          mp = 7 ∨ mp = 8 ∨ mp = 9 ∨ mp = 10 ∨ mp = 11) as Hc by lia.
  destruct_or!; rewrite Hc; simpl;
    try (subst mp; zdiv).
  destruct (is_leap (yoe + era * 400 + 1)) eqn:El.
  - subst mp; zdiv.
  - assert (doy ≠ 365) by (intros Hd; specialize (Hleap Hd); congruence).
    subst mp; zdiv.
Qed.

(** The week of the fourth of January is the first of the year, and the
    week of the 28th of December is the last. *)
Lemma turn_of_year_weeks z y :
  (civil_from_days z = (y, 1, 4) →
   (day_of_year (civil_from_days (thursday_of_week z)) - 1) / 7 + 1 = 1) ∧
  (civil_from_days z = (y, 12, 28) →
   52 ≤ (day_of_year (civil_from_days (thursday_of_week z)) - 1) / 7 + 1 ≤ 53).
Proof.
  pose proof (days_from_civil_from_days z) as Hback.
  pose proof (thursday_of_week_spec z) as (_ & Hnear & _).
  set (k := thursday_of_week z - z).
  split; intros Hz; rewrite Hz in Hback.
  - assert (Hthu : thursday_of_week z = days_from_civil (y, 1, 4 + k)).
    { rewrite days_from_civil_shift, Hback. subst k. lia. }
    rewrite Hthu, civil_from_days_from_civil.
    + unfold day_of_year. cbn [days_before_month]. rewrite andb_false_r.
      subst k. zdiv.
    + lia.
    + cbn [days_in_month]. subst k. lia.
  - assert (Hthu : thursday_of_week z = days_from_civil (y, 12, 28 + k)).
    { rewrite days_from_civil_shift, Hback. subst k. lia. }
    rewrite Hthu, civil_from_days_from_civil.
    + unfold day_of_year. cbn [days_before_month].
      destruct (is_leap y && (2 <? 12)); subst k; zdiv.
    + lia.
    + cbn [days_in_month]. subst k. lia.
Qed.

Section date_columns.
Variable c : cluster.

(** X14: the year, month and day columns always name a real date of the
    calendar (the day is within the month, leap years counted), and with
    the hour column they give back the local hour of the play. *)
Theorem time_columns_form_a_date (ty : ts_type) (r : Log.t) (d : Timed.t) :
  with_time_columns c ty r = Ok d →
  1 ≤ Timed.day d ≤ days_in_month (Timed.year d) (Timed.month d) ∧
  civil_from_days (days_from_civil (Timed.year d, Timed.month d, Timed.day d))
    = (Timed.year d, Timed.month d, Timed.day d) ∧
  local_seconds c (Timed.start_time d) / 3600
    = days_from_civil (Timed.year d, Timed.month d, Timed.day d) * 24
      + Timed.hour d.
Proof.
  intros Hd. apply with_time_columns_Ok in Hd as (t & _ & ->).
  unfold timed.
  cbn [Timed.start_time Timed.hour Timed.day Timed.month Timed.year].
  pose proof (civil_from_days_valid (local_day c t)) as Hvalid.
  pose proof (civil_from_days_bounds (local_day c t)) as [Hm Hday].
  pose proof (civil_date_of_local_day c t) as Hback.
  assert (Hrange : 1 ≤ dayofmonth c t
                   ≤ days_in_month (year c t) (month c t)).
  { unfold dayofmonth, year, month. lia. }
  split; [exact Hrange|]. split.
  - apply civil_from_days_from_civil; [apply month_bounds|exact Hrange].
  - rewrite Hback. unfold hour, local_day.
    generalize (local_seconds c t). intros s. zdiv.
Qed.

(** X15: the week column follows ISO 8601 at the turn of the year,
    whatever the weekday: a play on the fourth of January is in week 1,
    and a play on the 28th of December is in the last week, 52 or 53. *)
Theorem week_at_turn_of_year (ty : ts_type) (r : Log.t) (d : Timed.t) :
  with_time_columns c ty r = Ok d →
  (Timed.month d = 1 → Timed.day d = 4 → Timed.week d = 1) ∧
  (Timed.month d = 12 → Timed.day d = 28 → 52 ≤ Timed.week d ≤ 53).
Proof.
  intros Hd. apply with_time_columns_Ok in Hd as (t & _ & ->).
  unfold timed. cbn [Timed.week Timed.day Timed.month].
  unfold month, dayofmonth, weekofyear.
  pose proof (turn_of_year_weeks (local_day c t)
                (civil_from_days (local_day c t)).1.1) as [Hjan Hdec].
  destruct (civil_from_days (local_day c t)) as [[y m] dd].
  cbn [fst snd] in *.
  split; intros -> ->; [by apply Hjan|by apply Hdec].
Qed.

End date_columns.

(** ** The artists table *)

(** X16: the artists table has one row for each variant of an artist,
    not one for each [artist_id]: song records of one artist that agree
    on name, location, latitude and longitude share a single row, and
    records that disagree on one of them give two rows under the same
    [artist_id]. *)
Theorem artists_one_row_per_variant (dataframe : list Song.t) (r1 r2 : Song.t) :
  r1 ∈ dataframe → r2 ∈ dataframe →
  Song.artist_id r1 = Song.artist_id r2 →
  (select_artist r1 = select_artist r2 →
   length (filter (λ row, row = select_artist r1) (artists_table dataframe)) = 1%nat) ∧
  (select_artist r1 ≠ select_artist r2 →
   select_artist r1 ∈ artists_table dataframe ∧
   select_artist r2 ∈ artists_table dataframe ∧
   (2 ≤ length (filter (λ row, ArtistDim.artist_id row = Song.artist_id r1)
                       (artists_table dataframe)))%nat).
Proof.
  intros H1 H2 Hid.
  assert (Hin1 : select_artist r1 ∈ artists_table dataframe).
  { by apply elem_of_dropDuplicates, list_elem_of_fmap_2. }
  assert (Hin2 : select_artist r2 ∈ artists_table dataframe).
  { by apply elem_of_dropDuplicates, list_elem_of_fmap_2. }
  split.
  - intros _. apply NoDup_occurs_once; [apply dropDuplicates_NoDup|done].
  - intros Hne. split; [done|]. split; [done|].
    set (same := filter _ _).
    assert (Hs1 : select_artist r1 ∈ same) by (by apply list_elem_of_filter).
    assert (Hs2 : select_artist r2 ∈ same).
    { apply list_elem_of_filter. split; [|done]. by rewrite Hid. }
    destruct same as [|a [|b l]]; simpl; [|exfalso|lia].
    + by apply elem_of_nil in Hs1.
    + apply list_elem_of_singleton in Hs1, Hs2. congruence.
Qed.


(** ** The further properties on the sample data *)

(** The play with a textual [ts] fails the job after the users table, and
    the time table of an earlier run is gone. *)
Lemma udf_failure_after_users_table_witness :
  (∃ old, stale_time_bucket !! time_path "out" = Some old) ∧
  ∃ e,
    (process_log_data utc "in/" "out" stale_time_bucket).2
      = Raise (PythonException e) ∧
    (process_log_data utc "in/" "out" stale_time_bucket).1 !! users_path "out"
      = Some (UsersParquet (users_table (where_ is_next_song [elena; text_stamp]))) ∧
    (process_log_data utc "in/" "out" stale_time_bucket).1 !! time_path "out"
      = None ∧
    (process_log_data utc "in/" "out" stale_time_bucket).1 !! songplays_path "out"
      = stale_time_bucket !! songplays_path "out".
Proof.
  split; [eexists; vm_compute; reflexivity|].
  apply (udf_failure_after_users_table utc "in/" "out" stale_time_bucket
           [elena; text_stamp] text_stamp (PythonException TypeError)).
  - vm_compute. reflexivity.
  - apply list_elem_of_further, list_elem_of_here.
  - reflexivity.
  - vm_compute. reflexivity.
Defined.


(** Two page views and no play: three empty tables. *)
Lemma no_play_records_witness :
  process_log_data utc "in/" "out" page_views_bucket
  = (<[songplays_path "out" := SongplaysParquet []]>
       (<[time_path "out" := TimeParquet []]>
          (<[users_path "out" := UsersParquet []]> page_views_bucket)),
     Ok tt).
Proof.
  apply (no_play_records utc "in/" "out" page_views_bucket
           [home_visit; home_visit] (songs_table [setanta_studio])
           (songs_table [setanta_studio])).
  - vm_compute. reflexivity.
  - discriminate.
  - vm_compute. reflexivity.
  - vm_compute. reflexivity.
  - repeat constructor; discriminate.
Defined.



Lemma songplays_keys_from_songs_table_witness :
  Forall (λ play,
    (SongPlay.song_id play = None ∧ SongPlay.artist_id play = None) ∨
    ∃ song r, song ∈ songs_at "out" matched_bucket ∧ r ∈ sample_logs ∧
              Log.page r = Some "NextSong"%string ∧
              holds (song_matches r song) = true ∧
              SongPlay.song_id play = SongDim.song_id song ∧
              SongPlay.artist_id play = SongDim.artist_id song)
    (songplays_at "out" matched_run.1).
Proof.
  apply Forall_forall.
  apply (songplays_keys_from_songs_table utc "in/" "out" matched_bucket
           matched_run.1 sample_logs (songs_at "out" matched_bucket)).
  - vm_compute. reflexivity.
  - vm_compute. reflexivity.
  - vm_compute. reflexivity.
  - apply (run_Ok matched_run). vm_compute. reflexivity.
  - vm_compute. reflexivity.
Defined.


(** 2 November 2018, 01:25:34 UTC: day 17837, hour 428089 of the epoch. *)
Lemma time_columns_form_a_date_witness :
  1 ≤ 2 ≤ days_in_month 2018 11 ∧
  civil_from_days (days_from_civil (2018, 11, 2)) = (2018, 11, 2) ∧
  local_seconds utc 1541121934796000 / 3600 = days_from_civil (2018, 11, 2) * 24 + 1.
Proof.
  apply (time_columns_form_a_date utc LongType elena
           (Timed.mk elena 1541121934796000 1 2 44 11 2018 6)).
  vm_compute. reflexivity.
Defined.

(** 4 January 2019 is in week 1; 28 December 2020 is in week 53. *)
Lemma week_at_turn_of_year_witness :
  with_time_columns utc LongType january_play
    = Ok (Timed.mk january_play 1546603200000000 12 4 1 1 2019 6) ∧
  with_time_columns utc LongType december_play
    = Ok (Timed.mk december_play 1609156800000000 12 28 53 12 2020 2) ∧
  Timed.week (Timed.mk january_play 1546603200000000 12 4 1 1 2019 6) = 1 ∧
  52 ≤ Timed.week (Timed.mk december_play 1609156800000000 12 28 53 12 2020 2) ≤ 53.
Proof.
  assert (Hjan : with_time_columns utc LongType january_play
                 = Ok (Timed.mk january_play 1546603200000000 12 4 1 1 2019 6))
    by (vm_compute; reflexivity).
  assert (Hdec : with_time_columns utc LongType december_play
                 = Ok (Timed.mk december_play 1609156800000000 12 28 53 12 2020 2))
    by (vm_compute; reflexivity).
  split; [exact Hjan|]. split; [exact Hdec|]. split.
  - apply (week_at_turn_of_year utc LongType january_play _ Hjan); reflexivity.
  - apply (week_at_turn_of_year utc LongType december_play _ Hdec); reflexivity.
Defined.

(** One artist recorded in Dubai and in London: two rows under one id. *)
Lemma artists_one_row_per_variant_witness :
  (2 ≤ length (filter (λ row, ArtistDim.artist_id row = Song.artist_id setanta_studio)
                      (artists_table [setanta_studio; setanta_live; setanta_abroad])))%nat ∧
  length (filter (λ row, row = select_artist setanta_studio)
                 (artists_table [setanta_studio; setanta_live; setanta_abroad])) = 1%nat.
Proof.
  split.
  - apply (artists_one_row_per_variant
             [setanta_studio; setanta_live; setanta_abroad]
             setanta_studio setanta_abroad).
    + apply list_elem_of_here.
    + do 2 apply list_elem_of_further. apply list_elem_of_here.
    + reflexivity.
    + discriminate.
  - apply (artists_one_row_per_variant
             [setanta_studio; setanta_live; setanta_abroad]
             setanta_studio setanta_live).
    + apply list_elem_of_here.
    + apply list_elem_of_further, list_elem_of_here.
    + reflexivity.
    + reflexivity.
Defined.


(** A play and a song that both lack a title do not match. *)
Lemma null_never_matches_witness :
  songplays_table [timed utc untitled_play 1541121934796000]
                  [select_song untitled_song]
  = [songplay_of utc untitled_play 1541121934796000 None None] ∧
  holds (song_matches untitled_play (select_song untitled_song)) = false.
Proof.
  destruct (null_never_matches utc untitled_play (select_song untitled_song))
    as [Hplay Hsong].
  split; [apply Hplay|apply Hsong]; by left.
Defined.
